(** * The PC platform's dual-8259 interrupt controller driver

    A shallow embedding of [platform/pc/interrupts.c]: the remap routine,
    the cached-mask line enable/disable with its cascade bookkeeping, the
    end-of-interrupt routing, and the vector dispatch table.

    The C statics ([irqMask], [int_handler_table]) and the I/O ports the
    driver touches form an explicit [machine]; every routine is a function
    of the machine that also yields the list of observable events it
    produced (port reads and writes, lock operations, handler calls). *)

From Stdlib Require Import ZArith List Bool Lia.
Import ListNotations.
Local Open Scope Z_scope.

(** ** Machine integers *)

(** Conversion to [uint8_t] and to [unsigned int]. *)
Definition uint8 (x : Z) : Z := x mod 2 ^ 8.
Definition uint32 (x : Z) : Z := x mod 2 ^ 32.

(** C truth value of an integer expression. *)
Definition truthy (x : Z) : bool := negb (x =? 0).

(** ** Constants *)

Definition PIC1 : Z := 0x20.
Definition PIC2 : Z := 0xA0.

Definition ICW1 : Z := 0x11.
Definition ICW4 : Z := 0x01.

(** The vector layout comes from [platform/pc.h], which this file only
    includes; the four constants it uses are parameters of the model. *)
Record pc_config : Type := {
  PIC1_BASE : Z;     (* first vector of the master controller *)
  PIC2_BASE : Z;     (* first vector of the slave controller *)
  INT_PIC2 : Z;      (* vector of the master line the slave is wired to *)
  INT_VECTORS : Z    (* size of the handler table *)
}.

(** The layouts under which the C expressions of the driver mean what they
    say: the constants are non-negative [int]s whose sums do not overflow,
    the two eight-vector ranges are disjoint and lie inside the table, and
    the cascade vector is one of the master's eight. *)
Definition config_ok (cfg : pc_config) : bool :=
  (0 <=? PIC1_BASE cfg) && (0 <=? PIC2_BASE cfg)
  && (PIC1_BASE cfg + 8 <=? INT_VECTORS cfg)
  && (PIC2_BASE cfg + 8 <=? INT_VECTORS cfg)
  && (INT_VECTORS cfg <? 2 ^ 31)
  && ((PIC1_BASE cfg + 8 <=? PIC2_BASE cfg) || (PIC2_BASE cfg + 8 <=? PIC1_BASE cfg))
  && (PIC1_BASE cfg <=? INT_PIC2 cfg) && (INT_PIC2 cfg <? PIC1_BASE cfg + 8).

(** The layout of the PC platform: the controllers are rebased to 0x20 and
    0x28, the slave hangs off master line 2, and the table has 0x31 slots. *)
Definition pc_layout : pc_config :=
  {| PIC1_BASE := 0x20; PIC2_BASE := 0x28; INT_PIC2 := 0x22; INT_VECTORS := 0x31 |}.

(** ** Result codes *)

Inductive status_t : Type := NO_ERROR | ERR_INVALID_ARGS.

Inductive handler_return : Type := INT_NO_RESCHEDULE | INT_RESCHEDULE.

(** ** The machine *)

(** [struct int_handler_struct]: a function pointer and its argument, both
    as addresses; address 0 is the null pointer. *)
Record int_handler_struct : Type := {
  handler : Z;
  arg : Z
}.

Record machine : Type := {
  ports : Z -> Z;                             (* byte held by each I/O port *)
  irqMask_0 : Z;                              (* irqMask[0] *)
  irqMask_1 : Z;                              (* irqMask[1] *)
  int_handler_table : Z -> int_handler_struct (* slots 0 .. INT_VECTORS-1 *)
}.

Inductive event : Type :=
| EvOutp (port data : Z)      (* outp(port, data) *)
| EvInp (port data : Z)       (* inp(port) returned data *)
| EvLock                      (* spin_lock_irqsave(&lock, state) *)
| EvUnlock                    (* spin_unlock_irqrestore(&lock, state) *)
| EvCall (fn a : Z).          (* the handler at address fn called with a *)

Definition is_outp (e : event) : bool :=
  match e with EvOutp _ _ => true | _ => false end.

Definition is_lock (e : event) : bool :=
  match e with EvLock => true | EvUnlock => true | _ => false end.

Definition is_call (e : event) : bool :=
  match e with EvCall _ _ => true | _ => false end.

(** The port writes of a trace, in order. *)
Definition port_writes (t : list event) : list event := filter is_outp t.

(** ** Computations: state passing with an event log *)

Definition M (A : Type) : Type := machine -> A * machine * list event.

Definition pure {A : Type} (a : A) : M A := fun m => (a, m, []).

Definition bind {A B : Type} (c : M A) (k : A -> M B) : M B :=
  fun m =>
    let '(a, m1, t1) := c m in
    let '(b, m2, t2) := k a m1 in
    (b, m2, t1 ++ t2).

Notation "x <- c ;; k" := (bind c (fun x => k))
  (at level 61, c at next level, right associativity).
Notation "c ;; k" := (bind c (fun _ => k))
  (at level 61, right associativity).

Definition result {A : Type} (r : A * machine * list event) : A := fst (fst r).
Definition final {A : Type} (r : A * machine * list event) : machine := snd (fst r).
Definition trace {A : Type} (r : A * machine * list event) : list event := snd r.

(** *** Port I/O

    A port holds the last byte written to it and reads back that byte;
    this is how the mask register behind the data port of an initialised
    8259 behaves, and the driver reads no other port. *)

Definition outp (port data : Z) : M unit :=
  fun m =>
    (tt,
     {| ports := fun p => if p =? port then uint8 data else ports m p;
        irqMask_0 := irqMask_0 m;
        irqMask_1 := irqMask_1 m;
        int_handler_table := int_handler_table m |},
     [EvOutp port (uint8 data)]).

Definition inp (port : Z) : M Z :=
  fun m => (uint8 (ports m port), m, [EvInp port (uint8 (ports m port))]).

(** *** The cached masks *)

Definition load_irqMask_0 : M Z := fun m => (irqMask_0 m, m, []).
Definition load_irqMask_1 : M Z := fun m => (irqMask_1 m, m, []).

Definition store_irqMask_0 (x : Z) : M unit :=
  fun m =>
    (tt,
     {| ports := ports m;
        irqMask_0 := uint8 x;
        irqMask_1 := irqMask_1 m;
        int_handler_table := int_handler_table m |},
     []).

Definition store_irqMask_1 (x : Z) : M unit :=
  fun m =>
    (tt,
     {| ports := ports m;
        irqMask_0 := irqMask_0 m;
        irqMask_1 := uint8 x;
        int_handler_table := int_handler_table m |},
     []).

(** *** The lock *)

Definition spin_lock_irqsave : M unit := fun m => (tt, m, [EvLock]).
Definition spin_unlock_irqrestore : M unit := fun m => (tt, m, [EvUnlock]).

(** ** The driver *)

(** [map]: init the PICs and remap them. *)
Definition map (pic1 pic2 : Z) : M unit :=
  (* send ICW1 *)
  outp PIC1 ICW1 ;;
  outp PIC2 ICW1 ;;
  (* send ICW2 *)
  outp (PIC1 + 1) pic1 ;;
  outp (PIC2 + 1) pic2 ;;
  (* send ICW3 *)
  outp (PIC1 + 1) 4 ;;
  outp (PIC2 + 1) 2 ;;
  (* send ICW4 *)
  outp (PIC1 + 1) 5 ;;
  outp (PIC2 + 1) 1 ;;
  (* disable all IRQs *)
  outp (PIC1 + 1) 0xff ;;
  outp (PIC2 + 1) 0xff ;;
  store_irqMask_0 0xff ;;
  store_irqMask_1 0xff.

(** *** Routines that may not return *)

(** A routine that may not return: [panic] and a failed [DEBUG_ASSERT]
    stop the kernel, and indexing [int_handler_table] outside its
    [INT_VECTORS] slots has no defined result. *)
Inductive outcome (A : Type) : Type :=
| Returned (a : A) (m : machine) (t : list event)
| Panicked (m : machine) (t : list event)
| OutOfBounds (m : machine) (t : list event).

Arguments Returned {A} a m t.
Arguments Panicked {A} m t.
Arguments OutOfBounds {A} m t.

Definition returning {A : Type} (c : M A) (m : machine) : outcome A :=
  let '(a, m', t) := c m in Returned a m' t.

(** Modelled from the spec: [DEBUG_ASSERT] is declared in [assert.h], which
    is not part of the driver; a violated assertion is a fatal
    internal-consistency failure, so the routine stops where it stands. *)
Definition DEBUG_ASSERT {A : Type} (cond : bool) (k : machine -> outcome A)
  : machine -> outcome A :=
  fun m => if cond then k m else Panicked m [].

(** Modelled from the spec: [panic] is declared in [lk/debug.h], which is
    not part of the driver; it is the fatal-abort primitive and never
    returns. *)
Definition panic {A : Type} : machine -> outcome A :=
  fun m => Panicked m [].

(** [x86_iframe_t], of which the driver reads the vector only. *)
Record x86_iframe_t : Type := { vector : Z }.

Section Driver.

Variable cfg : pc_config.

Definition enable (vector : Z) (enable : bool) : M unit :=
  if (PIC1_BASE cfg <=? vector) && (vector <? PIC1_BASE cfg + 8) then
    let vector := uint32 (vector - PIC1_BASE cfg) in
    let bit := uint8 (Z.shiftl 1 vector) in
    c0 <- load_irqMask_0 ;;
    if enable && truthy (Z.land c0 bit) then
      x <- inp (PIC1 + 1) ;; store_irqMask_0 x ;;
      c <- load_irqMask_0 ;; store_irqMask_0 (Z.land c (Z.lnot bit)) ;;
      c <- load_irqMask_0 ;; outp (PIC1 + 1) c ;;
      x <- inp (PIC1 + 1) ;; store_irqMask_0 x
    else if negb enable && negb (truthy (Z.land c0 bit)) then
      x <- inp (PIC1 + 1) ;; store_irqMask_0 x ;;
      c <- load_irqMask_0 ;; store_irqMask_0 (Z.lor c bit) ;;
      c <- load_irqMask_0 ;; outp (PIC1 + 1) c ;;
      x <- inp (PIC1 + 1) ;; store_irqMask_0 x
    else pure tt
  else if (PIC2_BASE cfg <=? vector) && (vector <? PIC2_BASE cfg + 8) then
    let vector := uint32 (vector - PIC2_BASE cfg) in
    let bit := uint8 (Z.shiftl 1 vector) in
    c1 <- load_irqMask_1 ;;
    (if enable && truthy (Z.land c1 bit) then
       x <- inp (PIC2 + 1) ;; store_irqMask_1 x ;;
       c <- load_irqMask_1 ;; store_irqMask_1 (Z.land c (Z.lnot bit)) ;;
       c <- load_irqMask_1 ;; outp (PIC2 + 1) c ;;
       x <- inp (PIC2 + 1) ;; store_irqMask_1 x
     else if negb enable && negb (truthy (Z.land c1 bit)) then
       x <- inp (PIC2 + 1) ;; store_irqMask_1 x ;;
       c <- load_irqMask_1 ;; store_irqMask_1 (Z.lor c bit) ;;
       c <- load_irqMask_1 ;; outp (PIC2 + 1) c ;;
       x <- inp (PIC2 + 1) ;; store_irqMask_1 x
     else pure tt) ;;
    let bit := uint8 (Z.shiftl 1 (INT_PIC2 cfg - PIC1_BASE cfg)) in
    c1 <- load_irqMask_1 ;;
    c0 <- load_irqMask_0 ;;
    if negb (c1 =? 0xff) && truthy (Z.land c0 bit) then
      x <- inp (PIC1 + 1) ;; store_irqMask_0 x ;;
      c <- load_irqMask_0 ;; store_irqMask_0 (Z.land c (Z.lnot bit)) ;;
      c <- load_irqMask_0 ;; outp (PIC1 + 1) c ;;
      x <- inp (PIC1 + 1) ;; store_irqMask_0 x
    else if (c1 =? 0) && negb (truthy (Z.land c0 bit)) then
      x <- inp (PIC1 + 1) ;; store_irqMask_0 x ;;
      c <- load_irqMask_0 ;; store_irqMask_0 (Z.lor c bit) ;;
      c <- load_irqMask_0 ;; outp (PIC1 + 1) c ;;
      x <- inp (PIC1 + 1) ;; store_irqMask_0 x
    else pure tt
  else
    pure tt.

Definition issueEOI (vector : Z) : M unit :=
  if (PIC1_BASE cfg <=? vector) && (vector <=? PIC1_BASE cfg + 7) then
    outp PIC1 0x20
  else if (PIC2_BASE cfg <=? vector) && (vector <=? PIC2_BASE cfg + 7) then
    outp PIC2 0x20 ;;
    outp PIC1 0x20   (* must issue both for the second PIC *)
  else
    pure tt.

Definition platform_init_interrupts : M unit :=
  (* rebase the PIC out of the way of processor exceptions *)
  map (PIC1_BASE cfg) (PIC2_BASE cfg).

Definition mask_interrupt (vector : Z) : M status_t :=
  if vector >=? INT_VECTORS cfg then
    pure ERR_INVALID_ARGS
  else
    spin_lock_irqsave ;;
    enable vector false ;;
    spin_unlock_irqrestore ;;
    pure NO_ERROR.

Definition platform_mask_irqs : M unit :=
  x <- inp (PIC1 + 1) ;; store_irqMask_0 x ;;
  x <- inp (PIC2 + 1) ;; store_irqMask_1 x ;;
  outp (PIC1 + 1) 0xff ;;
  outp (PIC2 + 1) 0xff ;;
  x <- inp (PIC1 + 1) ;; store_irqMask_0 x ;;
  x <- inp (PIC2 + 1) ;; store_irqMask_1 x.

Definition unmask_interrupt (vector : Z) : M status_t :=
  if vector >=? INT_VECTORS cfg then
    pure ERR_INVALID_ARGS
  else
    spin_lock_irqsave ;;
    enable vector true ;;
    spin_unlock_irqrestore ;;
    pure NO_ERROR.

(** *** The dispatcher *)

Definition in_table (vector : Z) : bool :=
  (0 <=? vector) && (vector <? INT_VECTORS cfg).

Definition store_handler_arg (vector a : Z) : M unit :=
  fun m =>
    (tt,
     {| ports := ports m;
        irqMask_0 := irqMask_0 m;
        irqMask_1 := irqMask_1 m;
        int_handler_table := fun i =>
          if i =? vector
          then {| handler := handler (int_handler_table m i); arg := a |}
          else int_handler_table m i |},
     []).

Definition store_handler_handler (vector h : Z) : M unit :=
  fun m =>
    (tt,
     {| ports := ports m;
        irqMask_0 := irqMask_0 m;
        irqMask_1 := irqMask_1 m;
        int_handler_table := fun i =>
          if i =? vector
          then {| handler := h; arg := arg (int_handler_table m i) |}
          else int_handler_table m i |},
     []).

(** What the code behind each function pointer does when called with an
    argument: it may change the machine in any way and returns its
    rescheduling decision. *)
Variable handlers : Z -> Z -> machine -> handler_return * machine.

Definition call_handler (fn a : Z) : M handler_return :=
  fun m => let '(r, m') := handlers fn a m in (r, m', [EvCall fn a]).

Definition platform_irq (frame : x86_iframe_t) : machine -> outcome handler_return :=
  (* get the current vector *)
  let vector := vector frame in
  DEBUG_ASSERT (vector >=? 0x20) (fun m =>
    if in_table vector then
      returning
        ((* deliver the interrupt *)
         ret <- (if truthy (handler (int_handler_table m vector))
                 then call_handler (handler (int_handler_table m vector))
                                   (arg (int_handler_table m vector))
                 else pure INT_NO_RESCHEDULE) ;;
         (* ack the interrupt *)
         issueEOI vector ;;
         pure ret) m
    else OutOfBounds m []).

Definition register_int_handler (vector handler arg : Z) : machine -> outcome unit :=
  if vector >=? INT_VECTORS cfg then
    panic
  else
    returning
      (spin_lock_irqsave ;;
       store_handler_arg vector arg ;;
       store_handler_handler vector handler ;;
       spin_unlock_irqrestore).

End Driver.

(** ** A machine to run on *)

(** The machine at power-on: the statics are zero-initialised; the ports
    hold zero as well (any content would do, the remap routine overwrites
    what the driver later reads). *)
Definition power_on : machine :=
  {| ports := fun _ => 0;
     irqMask_0 := 0;
     irqMask_1 := 0;
     int_handler_table := fun _ => {| handler := 0; arg := 0 |} |}.

(** Running a list of computations in order, from a machine. *)
Fixpoint run_all {A : Type} (cs : list (M A)) (m : machine) : machine :=
  match cs with
  | [] => m
  | c :: cs' => run_all cs' (final (c m))
  end.

(** The machine once [platform_init_interrupts] has run on the PC layout. *)
Definition booted : machine := final (platform_init_interrupts pc_layout power_on).

(** ** Reading the state *)

(** What [inp] returns from the two mask registers. *)
Definition mask_register_1 (m : machine) : Z := uint8 (ports m (PIC1 + 1)).
Definition mask_register_2 (m : machine) : Z := uint8 (ports m (PIC2 + 1)).

(** The caches agree with the registers they mirror. *)
Definition coherent (m : machine) : Prop :=
  irqMask_0 m = mask_register_1 m /\ irqMask_1 m = mask_register_2 m.

(** The read-modify-write-readback block that [enable] repeats for the
    master's and for the slave's mask, with the modification as [f]. *)
Definition rmw_irqMask_0 (f : Z -> Z) : M unit :=
  x <- inp (PIC1 + 1) ;; store_irqMask_0 x ;;
  c <- load_irqMask_0 ;; store_irqMask_0 (f c) ;;
  c <- load_irqMask_0 ;; outp (PIC1 + 1) c ;;
  x <- inp (PIC1 + 1) ;; store_irqMask_0 x.

Definition rmw_irqMask_1 (f : Z -> Z) : M unit :=
  x <- inp (PIC2 + 1) ;; store_irqMask_1 x ;;
  c <- load_irqMask_1 ;; store_irqMask_1 (f c) ;;
  c <- load_irqMask_1 ;; outp (PIC2 + 1) c ;;
  x <- inp (PIC2 + 1) ;; store_irqMask_1 x.

(** The mask bit of a line, [1 << line] as a [uint8_t]. *)
Definition line_bit (line : Z) : Z := uint8 (Z.shiftl 1 line).

(** The three parts of [enable]: the update of a master line, the update
    of a slave line, and the cascade bookkeeping that follows the latter. *)
Definition enable_master_line (line : Z) (en : bool) : M unit :=
  c0 <- load_irqMask_0 ;;
  if en && truthy (Z.land c0 (line_bit line)) then
    rmw_irqMask_0 (fun c => Z.land c (Z.lnot (line_bit line)))
  else if negb en && negb (truthy (Z.land c0 (line_bit line))) then
    rmw_irqMask_0 (fun c => Z.lor c (line_bit line))
  else pure tt.

Definition enable_slave_line (line : Z) (en : bool) : M unit :=
  c1 <- load_irqMask_1 ;;
  if en && truthy (Z.land c1 (line_bit line)) then
    rmw_irqMask_1 (fun c => Z.land c (Z.lnot (line_bit line)))
  else if negb en && negb (truthy (Z.land c1 (line_bit line))) then
    rmw_irqMask_1 (fun c => Z.lor c (line_bit line))
  else pure tt.

Definition cascade_update (line : Z) : M unit :=
  c1 <- load_irqMask_1 ;;
  c0 <- load_irqMask_0 ;;
  if negb (c1 =? 0xff) && truthy (Z.land c0 (line_bit line)) then
    rmw_irqMask_0 (fun c => Z.land c (Z.lnot (line_bit line)))
  else if (c1 =? 0) && negb (truthy (Z.land c0 (line_bit line))) then
    rmw_irqMask_0 (fun c => Z.lor c (line_bit line))
  else pure tt.

(** Clearing and setting the bit of a line in a mask. *)
Definition clear_line (line : Z) : Z -> Z := fun c => Z.land c (Z.lnot (line_bit line)).
Definition set_line (line : Z) : Z -> Z := fun c => Z.lor c (line_bit line).

(** What a line update makes of a cached mask [c] and the register [r] it
    mirrors: nothing when the cached bit already says what is asked for,
    else both become the register with the line's bit cleared or set. *)
Definition line_step (k : Z) (en : bool) (c r : Z) : Z * Z :=
  if Bool.eqb (Z.testbit c k) en then
    (uint8 ((if en then clear_line k else set_line k) r),
     uint8 ((if en then clear_line k else set_line k) r))
  else (c, r).

(** The eight vectors of the PC's slave controller. *)
Definition slave_vectors : list Z := [0x28; 0x29; 0x2a; 0x2b; 0x2c; 0x2d; 0x2e; 0x2f].

(** Either public operation, by the state it asks for. *)
Definition set_vector (cfg : pc_config) (en : bool) (vector : Z) : M status_t :=
  if en then unmask_interrupt cfg vector else mask_interrupt cfg vector.

(** Registration followed by the delivery of the same vector. *)
Definition register_then_dispatch (cfg : pc_config)
    (handlers : Z -> Z -> machine -> handler_return * machine)
    (v h ctx : Z) (m : machine) : outcome handler_return :=
  match register_int_handler cfg v h ctx m with
  | Returned _ m1 t1 =>
      match platform_irq cfg handlers {| vector := v |} m1 with
      | Returned r m2 t2 => Returned r m2 (t1 ++ t2)
      | Panicked m2 t2 => Panicked m2 (t1 ++ t2)
      | OutOfBounds m2 t2 => OutOfBounds m2 (t1 ++ t2)
      end
  | Panicked m1 t1 => Panicked m1 t1
  | OutOfBounds m1 t1 => OutOfBounds m1 t1
  end.

(** A handler that does nothing and asks for no reschedule. *)
Definition idle_handlers (fn a : Z) (m : machine) : handler_return * machine :=
  (INT_NO_RESCHEDULE, m).

(** A request to mask or unmask: the state asked for and the vector. *)
Definition request : Type := (bool * Z)%type.

(** The calls a list of requests stands for, in order. *)
Definition calls (cfg : pc_config) (rs : list request) : list (M status_t) :=
  List.map (fun r => set_vector cfg (fst r) (snd r)) rs.

(** An access, read or write, to one of the two mask registers. *)
Definition is_mask_access (e : event) : bool :=
  match e with
  | EvOutp p _ => (p =? PIC1 + 1) || (p =? PIC2 + 1)
  | EvInp p _ => (p =? PIC1 + 1) || (p =? PIC2 + 1)
  | _ => false
  end.

(** An access to the master's mask register. *)
Definition is_master_mask_access (e : event) : bool :=
  match e with
  | EvOutp p _ => p =? PIC1 + 1
  | EvInp p _ => p =? PIC1 + 1
  | _ => false
  end.

(** Whether the mask bit of vector [v] is set after the requests [rs], given
    whether it was set before them: the last request for [v] decides. *)
Fixpoint line_masked (v : Z) (rs : list request) (before : bool) : bool :=
  match rs with
  | [] => before
  | r :: rs' => line_masked v rs' (if snd r =? v then negb (fst r) else before)
  end.

(** * Properties *)

(** ** Bytes and bits *)

Lemma uint8_range (x : Z) : 0 <= uint8 x < 256.
Proof. unfold uint8. change (2 ^ 8) with 256. apply Z.mod_pos_bound. lia. Qed.

Lemma uint8_idem (x : Z) : uint8 (uint8 x) = uint8 x.
Proof. unfold uint8. apply Z.mod_mod. discriminate. Qed.

Lemma uint8_small (x : Z) : 0 <= x < 256 -> uint8 x = x.
Proof. intros H. unfold uint8. apply Z.mod_small. exact H. Qed.

Lemma testbit_uint8 (x i : Z) :
  0 <= i -> Z.testbit (uint8 x) i = (i <? 8) && Z.testbit x i.
Proof.
  intros Hi. unfold uint8. destruct (Z.ltb_spec i 8) as [Hlt | Hge].
  - rewrite Z.mod_pow2_bits_low by lia. reflexivity.
  - rewrite Z.mod_pow2_bits_high by lia. reflexivity.
Qed.

Lemma line_bit_pow2 (k : Z) : 0 <= k < 8 -> line_bit k = 2 ^ k.
Proof.
  intros Hk. unfold line_bit. rewrite Z.shiftl_1_l. apply uint8_small.
  split; [apply Z.pow_nonneg; lia |].
  change 256 with (2 ^ 8). apply Z.pow_lt_mono_r; lia.
Qed.

Lemma testbit_line_bit (k i : Z) :
  0 <= k < 8 -> 0 <= i -> Z.testbit (line_bit k) i = (i =? k).
Proof.
  intros Hk Hi. rewrite line_bit_pow2 by exact Hk.
  destruct (Z.eqb_spec i k) as [-> | Hne].
  - apply Z.pow2_bits_true. lia.
  - apply Z.pow2_bits_false. lia.
Qed.

Lemma truthy_land_line_bit (c k : Z) :
  0 <= k < 8 -> truthy (Z.land c (line_bit k)) = Z.testbit c k.
Proof.
  intros Hk. unfold truthy. rewrite line_bit_pow2 by exact Hk.
  destruct (Z.testbit c k) eqn:Hb.
  - destruct (Z.eqb_spec (Z.land c (2 ^ k)) 0) as [H0 | _]; [| reflexivity].
    assert (Hf : Z.testbit (Z.land c (2 ^ k)) k = false)
      by (rewrite H0; apply Z.bits_0).
    rewrite Z.land_spec, Hb, Z.pow2_bits_true in Hf by lia. discriminate.
  - destruct (Z.eqb_spec (Z.land c (2 ^ k)) 0) as [_ | Hn]; [reflexivity |].
    exfalso. apply Hn. apply Z.bits_inj'. intros i Hi.
    rewrite Z.land_spec, Z.bits_0.
    destruct (Z.eq_dec i k) as [-> | Hne].
    + rewrite Hb. reflexivity.
    + rewrite Z.pow2_bits_false by lia. apply andb_false_r.
Qed.

(** Clearing and setting one bit of a byte, bit by bit. *)
Lemma testbit_clear_line (c k i : Z) :
  0 <= k < 8 -> 0 <= i ->
  Z.testbit (uint8 (Z.land (uint8 c) (Z.lnot (line_bit k)))) i
  = Z.testbit (uint8 c) i && negb (i =? k).
Proof.
  intros Hk Hi.
  rewrite testbit_uint8, Z.land_spec, Z.lnot_spec, testbit_line_bit, testbit_uint8
    by assumption.
  destruct (i <? 8), (Z.testbit c i), (i =? k); reflexivity.
Qed.

Lemma testbit_set_line (c k i : Z) :
  0 <= k < 8 -> 0 <= i ->
  Z.testbit (uint8 (Z.lor (uint8 c) (line_bit k))) i
  = Z.testbit (uint8 c) i || (i =? k).
Proof.
  intros Hk Hi.
  rewrite testbit_uint8, Z.lor_spec, testbit_line_bit, testbit_uint8 by assumption.
  destruct (Z.ltb_spec i 8), (Z.testbit c i), (Z.eqb_spec i k);
    try reflexivity; lia.
Qed.

Lemma config_ok_bounds (cfg : pc_config) :
  config_ok cfg = true ->
  0 <= PIC1_BASE cfg /\ 0 <= PIC2_BASE cfg
  /\ PIC1_BASE cfg + 8 <= INT_VECTORS cfg /\ PIC2_BASE cfg + 8 <= INT_VECTORS cfg
  /\ INT_VECTORS cfg < 2 ^ 31
  /\ (PIC1_BASE cfg + 8 <= PIC2_BASE cfg \/ PIC2_BASE cfg + 8 <= PIC1_BASE cfg)
  /\ PIC1_BASE cfg <= INT_PIC2 cfg < PIC1_BASE cfg + 8.
Proof.
  unfold config_ok.
  rewrite !andb_true_iff, orb_true_iff, !Z.leb_le, !Z.ltb_lt. lia.
Qed.

(** ** Sequencing *)

Lemma result_bind {A B : Type} (c : M A) (k : A -> M B) (m : machine) :
  result (bind c k m) = result (k (result (c m)) (final (c m))).
Proof.
  unfold bind, result, final. destruct (c m) as [[a m1] t1]. simpl.
  destruct (k a m1) as [[b m2] t2]. reflexivity.
Qed.

Lemma final_bind {A B : Type} (c : M A) (k : A -> M B) (m : machine) :
  final (bind c k m) = final (k (result (c m)) (final (c m))).
Proof.
  unfold bind, result, final. destruct (c m) as [[a m1] t1]. simpl.
  destruct (k a m1) as [[b m2] t2]. reflexivity.
Qed.

Lemma trace_bind {A B : Type} (c : M A) (k : A -> M B) (m : machine) :
  trace (bind c k m) = trace (c m) ++ trace (k (result (c m)) (final (c m))).
Proof.
  unfold bind, result, final, trace. destruct (c m) as [[a m1] t1]. simpl.
  destruct (k a m1) as [[b m2] t2]. reflexivity.
Qed.

Ltac binds := repeat progress rewrite ?result_bind, ?final_bind, ?trace_bind.

Lemma run_eta {A : Type} (r : A * machine * list event) :
  r = (result r, final r, trace r).
Proof. destruct r as [[a m] t]. reflexivity. Qed.

(** ** The read-modify-write-readback block *)

Section Rmw.

Variables (f : Z -> Z) (m : machine).

Lemma rmw_irqMask_0_trace :
  trace (rmw_irqMask_0 f m)
  = [EvInp (PIC1 + 1) (mask_register_1 m);
     EvOutp (PIC1 + 1) (uint8 (f (mask_register_1 m)));
     EvInp (PIC1 + 1) (uint8 (f (mask_register_1 m)))].
Proof.
  unfold mask_register_1. cbn. rewrite !uint8_idem. reflexivity.
Qed.

Lemma rmw_irqMask_0_cache :
  irqMask_0 (final (rmw_irqMask_0 f m)) = uint8 (f (mask_register_1 m)).
Proof. unfold mask_register_1. cbn. rewrite !uint8_idem. reflexivity. Qed.

Lemma rmw_irqMask_0_register :
  mask_register_1 (final (rmw_irqMask_0 f m)) = uint8 (f (mask_register_1 m)).
Proof. unfold mask_register_1. cbn. rewrite !uint8_idem. reflexivity. Qed.

Lemma rmw_irqMask_0_other_port (p : Z) :
  p <> PIC1 + 1 -> ports (final (rmw_irqMask_0 f m)) p = ports m p.
Proof.
  intros Hp. cbn. change 33 with (PIC1 + 1).
  destruct (Z.eqb_spec p (PIC1 + 1)) as [E | _]; [contradiction | reflexivity].
Qed.

Lemma rmw_irqMask_0_frame :
  irqMask_1 (final (rmw_irqMask_0 f m)) = irqMask_1 m
  /\ mask_register_2 (final (rmw_irqMask_0 f m)) = mask_register_2 m
  /\ int_handler_table (final (rmw_irqMask_0 f m)) = int_handler_table m.
Proof. repeat split. Qed.

Lemma rmw_irqMask_1_trace :
  trace (rmw_irqMask_1 f m)
  = [EvInp (PIC2 + 1) (mask_register_2 m);
     EvOutp (PIC2 + 1) (uint8 (f (mask_register_2 m)));
     EvInp (PIC2 + 1) (uint8 (f (mask_register_2 m)))].
Proof.
  unfold mask_register_2. cbn. rewrite !uint8_idem. reflexivity.
Qed.

Lemma rmw_irqMask_1_cache :
  irqMask_1 (final (rmw_irqMask_1 f m)) = uint8 (f (mask_register_2 m)).
Proof. unfold mask_register_2. cbn. rewrite !uint8_idem. reflexivity. Qed.

Lemma rmw_irqMask_1_register :
  mask_register_2 (final (rmw_irqMask_1 f m)) = uint8 (f (mask_register_2 m)).
Proof. unfold mask_register_2. cbn. rewrite !uint8_idem. reflexivity. Qed.

Lemma rmw_irqMask_1_frame :
  irqMask_0 (final (rmw_irqMask_1 f m)) = irqMask_0 m
  /\ mask_register_1 (final (rmw_irqMask_1 f m)) = mask_register_1 m
  /\ int_handler_table (final (rmw_irqMask_1 f m)) = int_handler_table m.
Proof. repeat split. Qed.

End Rmw.

(** ** The shape of [enable] *)

Lemma uint32_line (base v : Z) :
  base <= v < base + 8 -> uint32 (v - base) = v - base.
Proof. intros H. unfold uint32. apply Z.mod_small. lia. Qed.

Lemma enable_eq (cfg : pc_config) (v : Z) (en : bool) (m : machine) :
  enable cfg v en m =
  if (PIC1_BASE cfg <=? v) && (v <? PIC1_BASE cfg + 8) then
    enable_master_line (uint32 (v - PIC1_BASE cfg)) en m
  else if (PIC2_BASE cfg <=? v) && (v <? PIC2_BASE cfg + 8) then
    (enable_slave_line (uint32 (v - PIC2_BASE cfg)) en ;;
     cascade_update (INT_PIC2 cfg - PIC1_BASE cfg)) m
  else
    pure tt m.
Proof.
  unfold enable.
  destruct ((PIC1_BASE cfg <=? v) && (v <? PIC1_BASE cfg + 8)); [reflexivity |].
  destruct ((PIC2_BASE cfg <=? v) && (v <? PIC2_BASE cfg + 8)); [| reflexivity].
  rewrite (run_eta (bind _ _ m)).
  rewrite (run_eta (bind (enable_slave_line _ _) _ m)).
  unfold enable_slave_line, cascade_update. binds.
  cbn [load_irqMask_0 load_irqMask_1 result final trace fst snd app].
  reflexivity.
Qed.

Lemma enable_master_line_eq (k : Z) (en : bool) (m : machine) :
  0 <= k < 8 ->
  enable_master_line k en m =
  if Bool.eqb (Z.testbit (irqMask_0 m) k) en
  then rmw_irqMask_0 (if en then clear_line k else set_line k) m
  else (tt, m, []).
Proof.
  intros Hk. unfold enable_master_line.
  rewrite (run_eta (bind _ _ m)); binds.
  cbn [load_irqMask_0 result final trace fst snd app].
  rewrite truthy_land_line_bit by exact Hk.
  destruct en, (Z.testbit (irqMask_0 m) k); cbn [andb negb Bool.eqb];
    try (symmetry; apply run_eta); reflexivity.
Qed.

Lemma enable_slave_line_eq (k : Z) (en : bool) (m : machine) :
  0 <= k < 8 ->
  enable_slave_line k en m =
  if Bool.eqb (Z.testbit (irqMask_1 m) k) en
  then rmw_irqMask_1 (if en then clear_line k else set_line k) m
  else (tt, m, []).
Proof.
  intros Hk. unfold enable_slave_line.
  rewrite (run_eta (bind _ _ m)); binds.
  cbn [load_irqMask_1 result final trace fst snd app].
  rewrite truthy_land_line_bit by exact Hk.
  destruct en, (Z.testbit (irqMask_1 m) k); cbn [andb negb Bool.eqb];
    try (symmetry; apply run_eta); reflexivity.
Qed.

Lemma cascade_update_eq (k : Z) (m : machine) :
  0 <= k < 8 ->
  cascade_update k m =
  if negb (irqMask_1 m =? 0xff) && Z.testbit (irqMask_0 m) k then
    rmw_irqMask_0 (clear_line k) m
  else if (irqMask_1 m =? 0) && negb (Z.testbit (irqMask_0 m) k) then
    rmw_irqMask_0 (set_line k) m
  else (tt, m, []).
Proof.
  intros Hk. unfold cascade_update.
  rewrite (run_eta (bind _ _ m)); binds.
  cbn [load_irqMask_0 load_irqMask_1 result final trace fst snd app].
  rewrite truthy_land_line_bit by exact Hk.
  destruct (negb (irqMask_1 m =? 0xff) && Z.testbit (irqMask_0 m) k);
    [symmetry; apply run_eta |].
  destruct ((irqMask_1 m =? 0) && negb (Z.testbit (irqMask_0 m) k));
    [symmetry; apply run_eta | reflexivity].
Qed.

Lemma set_vector_eq (cfg : pc_config) (en : bool) (v : Z) (m : machine) :
  set_vector cfg en v m =
  if v >=? INT_VECTORS cfg then (ERR_INVALID_ARGS, m, [])
  else (NO_ERROR, final (enable cfg v en m),
        EvLock :: trace (enable cfg v en m) ++ [EvUnlock]).
Proof.
  unfold set_vector, unmask_interrupt, mask_interrupt.
  destruct en; destruct (v >=? INT_VECTORS cfg); try reflexivity;
    rewrite (run_eta (bind _ _ m)); binds; reflexivity.
Qed.

(** ** Initialisation *)

(** C7. After [platform_init_interrupts] every hardware line is disabled:
    the last two port writes put 0xff into the mask registers of the master
    and of the slave, both registers read back 0xff, and both cached mask
    bytes are 0xff. *)
Theorem init_disables_all_lines (cfg : pc_config) (m : machine) :
  (exists t, trace (platform_init_interrupts cfg m)
             = t ++ [EvOutp (PIC1 + 1) 0xff; EvOutp (PIC2 + 1) 0xff])
  /\ mask_register_1 (final (platform_init_interrupts cfg m)) = 0xff
  /\ mask_register_2 (final (platform_init_interrupts cfg m)) = 0xff
  /\ irqMask_0 (final (platform_init_interrupts cfg m)) = 0xff
  /\ irqMask_1 (final (platform_init_interrupts cfg m)) = 0xff.
Proof.
  split.
  - eexists [_; _; _; _; _; _; _; _]. reflexivity.
  - repeat split.
Qed.

Lemma init_coherent (cfg : pc_config) (m : machine) :
  coherent (final (platform_init_interrupts cfg m)).
Proof. split; reflexivity. Qed.

(** ** Argument checking *)

(** C3. [mask_interrupt] and [unmask_interrupt] report the invalid-argument
    error exactly for the vectors at or above [INT_VECTORS]; they then leave
    the machine as it was and produce no event, in particular no lock
    operation. Every vector below [INT_VECTORS] is answered with success. *)
Theorem invalid_vector_rejected (cfg : pc_config) (v : Z) (m : machine) :
  (result (mask_interrupt cfg v m) = ERR_INVALID_ARGS <-> v >= INT_VECTORS cfg)
  /\ (result (unmask_interrupt cfg v m) = ERR_INVALID_ARGS <-> v >= INT_VECTORS cfg)
  /\ (v >= INT_VECTORS cfg ->
      mask_interrupt cfg v m = (ERR_INVALID_ARGS, m, [])
      /\ unmask_interrupt cfg v m = (ERR_INVALID_ARGS, m, []))
  /\ (v < INT_VECTORS cfg ->
      result (mask_interrupt cfg v m) = NO_ERROR
      /\ result (unmask_interrupt cfg v m) = NO_ERROR).
Proof.
  pose proof (set_vector_eq cfg false v m) as Hm.
  pose proof (set_vector_eq cfg true v m) as Hu.
  cbn [set_vector] in Hm, Hu. rewrite Hm, Hu.
  destruct (Z.geb_spec v (INT_VECTORS cfg)) as [Hge | Hlt]; cbn [result fst].
  - repeat split; intros; try reflexivity; lia.
  - repeat split; intros; try reflexivity; try discriminate; lia.
Qed.

Lemma invalid_vector_rejected_witness :
  mask_interrupt pc_layout 0x31 booted = (ERR_INVALID_ARGS, booted, [])
  /\ unmask_interrupt pc_layout 0x31 booted = (ERR_INVALID_ARGS, booted, []).
Proof.
  apply (invalid_vector_rejected pc_layout 0x31 booted). simpl. lia.
Defined.

(** ** Vectors without hardware backing *)

(** C8. For a vector inside the table but outside both controllers' ranges,
    [mask_interrupt] and [unmask_interrupt] succeed and do nothing but take
    and release the lock: the machine (both cached masks, all ports, the
    handler table) is the one they started from. *)
Theorem unbacked_vector_noop (cfg : pc_config) (v : Z) (m : machine) :
  0 <= v < INT_VECTORS cfg ->
  ~ (PIC1_BASE cfg <= v < PIC1_BASE cfg + 8) ->
  ~ (PIC2_BASE cfg <= v < PIC2_BASE cfg + 8) ->
  mask_interrupt cfg v m = (NO_ERROR, m, [EvLock; EvUnlock])
  /\ unmask_interrupt cfg v m = (NO_ERROR, m, [EvLock; EvUnlock]).
Proof.
  intros Hv H1 H2.
  pose proof (set_vector_eq cfg false v m) as Hm.
  pose proof (set_vector_eq cfg true v m) as Hu.
  cbn [set_vector] in Hm, Hu. rewrite Hm, Hu, !enable_eq.
  destruct (Z.geb_spec v (INT_VECTORS cfg)) as [Hge | _]; [lia |].
  destruct (Z.leb_spec (PIC1_BASE cfg) v), (Z.ltb_spec v (PIC1_BASE cfg + 8));
    try lia;
    destruct (Z.leb_spec (PIC2_BASE cfg) v), (Z.ltb_spec v (PIC2_BASE cfg + 8));
    try lia; split; reflexivity.
Qed.

Lemma unbacked_vector_noop_witness :
  mask_interrupt pc_layout 0x30 booted = (NO_ERROR, booted, [EvLock; EvUnlock])
  /\ unmask_interrupt pc_layout 0x30 booted = (NO_ERROR, booted, [EvLock; EvUnlock]).
Proof.
  apply (unbacked_vector_noop pc_layout 0x30 booted); simpl; lia.
Defined.

(** ** End of interrupt *)

(** C6. [issueEOI] writes the acknowledge command 0x20 to the master's
    command port alone for a vector of the master's range, to the slave's
    command port and then to the master's for a vector of the slave's
    range, and does nothing at all for any other vector. *)
Theorem issueEOI_routing (cfg : pc_config) (v : Z) (m : machine) :
  config_ok cfg = true ->
  (PIC1_BASE cfg <= v < PIC1_BASE cfg + 8 ->
   trace (issueEOI cfg v m) = [EvOutp PIC1 0x20])
  /\ (PIC2_BASE cfg <= v < PIC2_BASE cfg + 8 ->
      trace (issueEOI cfg v m) = [EvOutp PIC2 0x20; EvOutp PIC1 0x20])
  /\ (~ (PIC1_BASE cfg <= v < PIC1_BASE cfg + 8) ->
      ~ (PIC2_BASE cfg <= v < PIC2_BASE cfg + 8) ->
      issueEOI cfg v m = (tt, m, [])).
Proof.
  intros Hok. apply config_ok_bounds in Hok. unfold issueEOI.
  destruct (Z.leb_spec (PIC1_BASE cfg) v), (Z.leb_spec v (PIC1_BASE cfg + 7)),
    (Z.leb_spec (PIC2_BASE cfg) v), (Z.leb_spec v (PIC2_BASE cfg + 7));
    cbn [andb]; repeat split; intros; try reflexivity; lia.
Qed.

Lemma issueEOI_routing_witness :
  trace (issueEOI pc_layout 0x2b booted) = [EvOutp PIC2 0x20; EvOutp PIC1 0x20].
Proof.
  apply (issueEOI_routing pc_layout 0x2b booted); [reflexivity | simpl; lia].
Defined.

(** ** Programming errors *)

(** C9. Registration of a vector at or above [INT_VECTORS] panics, and the
    delivery of a vector below 0x20 fails its assertion: neither returns,
    and both stop before the handler table is touched, with the machine
    unchanged and no event produced. *)
Theorem programming_errors_abort (cfg : pc_config)
    (handlers : Z -> Z -> machine -> handler_return * machine) (m : machine) :
  (forall v h a, v >= INT_VECTORS cfg ->
     register_int_handler cfg v h a m = Panicked m [])
  /\ (forall frame, vector frame < 0x20 ->
        platform_irq cfg handlers frame m = Panicked m []).
Proof.
  split.
  - intros v h a Hv. unfold register_int_handler.
    destruct (Z.geb_spec v (INT_VECTORS cfg)); [reflexivity | lia].
  - intros frame Hv. unfold platform_irq, DEBUG_ASSERT.
    destruct (Z.geb_spec (vector frame) 0x20); [lia | reflexivity].
Qed.

Lemma programming_errors_abort_witness :
  register_int_handler pc_layout 0x31 1 7 booted = Panicked booted []
  /\ platform_irq pc_layout idle_handlers {| vector := 0x1f |} booted
     = Panicked booted [].
Proof.
  split.
  - apply (programming_errors_abort pc_layout idle_handlers booted). simpl. lia.
  - apply (programming_errors_abort pc_layout idle_handlers booted). simpl. lia.
Defined.

(** ** Dispatch *)

Lemma issueEOI_no_call (cfg : pc_config) (v : Z) (m : machine) :
  filter is_call (trace (issueEOI cfg v m)) = [].
Proof.
  unfold issueEOI.
  destruct ((PIC1_BASE cfg <=? v) && (v <=? PIC1_BASE cfg + 7)); [reflexivity |].
  destruct ((PIC2_BASE cfg <=? v) && (v <=? PIC2_BASE cfg + 7)); reflexivity.
Qed.

(** C5, amended. For a vector from 0x20 up to [INT_VECTORS] and a non-null
    handler [h], registering [h] with [ctx] succeeds under the lock and
    fills the slot; the delivery of that vector then returns, having called
    [h] exactly once, with [ctx], before anything [issueEOI] writes for the
    vector, and its result is the decision [h] returned (whatever it is). *)
Theorem register_then_dispatch_calls_once (cfg : pc_config)
    (handlers : Z -> Z -> machine -> handler_return * machine)
    (v h ctx : Z) (m : machine) :
  0x20 <= v < INT_VECTORS cfg ->
  h <> 0 ->
  exists m1,
    register_int_handler cfg v h ctx m = Returned tt m1 [EvLock; EvUnlock]
    /\ int_handler_table m1 v = {| handler := h; arg := ctx |}
    /\ platform_irq cfg handlers {| vector := v |} m1
       = Returned (fst (handlers h ctx m1))
                  (final (issueEOI cfg v (snd (handlers h ctx m1))))
                  (EvCall h ctx :: trace (issueEOI cfg v (snd (handlers h ctx m1))))
    /\ filter is_call
         (EvCall h ctx :: trace (issueEOI cfg v (snd (handlers h ctx m1))))
       = [EvCall h ctx].
Proof.
  intros Hv Hh.
  set (m1 := final ((spin_lock_irqsave ;; store_handler_arg v ctx ;;
                     store_handler_handler v h ;; spin_unlock_irqrestore) m)).
  assert (Hslot : int_handler_table m1 v = {| handler := h; arg := ctx |}).
  { subst m1. cbn. rewrite Z.eqb_refl. reflexivity. }
  exists m1. split.
  { unfold register_int_handler.
    destruct (Z.geb_spec v (INT_VECTORS cfg)); [lia |]. reflexivity. }
  split; [exact Hslot |].
  split.
  - unfold platform_irq, DEBUG_ASSERT, in_table. cbn [vector].
    destruct (Z.geb_spec v 0x20); [| lia].
    destruct (Z.leb_spec 0 v); [| lia].
    destruct (Z.ltb_spec v (INT_VECTORS cfg)); [| lia].
    cbn [andb]. rewrite Hslot. cbn [handler arg]. unfold truthy.
    destruct (Z.eqb_spec h 0); [contradiction |]. cbn [negb].
    unfold returning, bind, call_handler.
    destruct (handlers h ctx _) as [r m2]. cbn [fst snd].
    destruct (issueEOI cfg v m2) as [[u m3] t3].
    cbn [pure final trace fst snd app]. rewrite app_nil_r. reflexivity.
  - cbn [filter is_call]. rewrite issueEOI_no_call. reflexivity.
Qed.

Lemma register_then_dispatch_calls_once_witness :
  exists m1,
    register_int_handler pc_layout 0x21 1 7 booted = Returned tt m1 [EvLock; EvUnlock]
    /\ int_handler_table m1 0x21 = {| handler := 1; arg := 7 |}
    /\ platform_irq pc_layout idle_handlers {| vector := 0x21 |} m1
       = Returned (fst (idle_handlers 1 7 m1))
                  (final (issueEOI pc_layout 0x21 (snd (idle_handlers 1 7 m1))))
                  (EvCall 1 7 :: trace (issueEOI pc_layout 0x21 (snd (idle_handlers 1 7 m1))))
    /\ filter is_call
         (EvCall 1 7 :: trace (issueEOI pc_layout 0x21 (snd (idle_handlers 1 7 m1))))
       = [EvCall 1 7].
Proof.
  apply (register_then_dispatch_calls_once pc_layout idle_handlers 0x21 1 7 booted).
  - simpl. lia.
  - discriminate.
Defined.

(** C5 as stated fails below 0x20: vector 0x10 lies inside the table, yet
    after registering a handler for it the delivery stops at the assertion;
    the handler is never called and nothing is acknowledged. *)
Lemma dispatch_below_0x20_counterexample :
  0 <= 0x10 < INT_VECTORS pc_layout
  /\ exists m1,
       register_then_dispatch pc_layout idle_handlers 0x10 1 7 booted
       = Panicked m1 [EvLock; EvUnlock].
Proof.
  split; [simpl; lia |]. eexists. reflexivity.
Qed.

(** ** What each part of [enable] leaves alone *)

Lemma enable_master_line_frame (k : Z) (en : bool) (m : machine) :
  irqMask_1 (final (enable_master_line k en m)) = irqMask_1 m
  /\ mask_register_2 (final (enable_master_line k en m)) = mask_register_2 m
  /\ int_handler_table (final (enable_master_line k en m)) = int_handler_table m.
Proof.
  unfold enable_master_line. binds.
  cbn [load_irqMask_0 result final fst snd].
  destruct (en && _); [apply rmw_irqMask_0_frame |].
  destruct (negb en && _); [apply rmw_irqMask_0_frame |].
  repeat split.
Qed.

Lemma enable_slave_line_frame (k : Z) (en : bool) (m : machine) :
  irqMask_0 (final (enable_slave_line k en m)) = irqMask_0 m
  /\ mask_register_1 (final (enable_slave_line k en m)) = mask_register_1 m
  /\ int_handler_table (final (enable_slave_line k en m)) = int_handler_table m.
Proof.
  unfold enable_slave_line. binds.
  cbn [load_irqMask_1 result final fst snd].
  destruct (en && _); [apply rmw_irqMask_1_frame |].
  destruct (negb en && _); [apply rmw_irqMask_1_frame |].
  repeat split.
Qed.

Lemma cascade_update_frame (k : Z) (m : machine) :
  irqMask_1 (final (cascade_update k m)) = irqMask_1 m
  /\ mask_register_2 (final (cascade_update k m)) = mask_register_2 m
  /\ int_handler_table (final (cascade_update k m)) = int_handler_table m.
Proof.
  unfold cascade_update. binds.
  cbn [load_irqMask_0 load_irqMask_1 result final fst snd].
  destruct (negb _ && _); [apply rmw_irqMask_0_frame |].
  destruct ((_ =? 0) && _); [apply rmw_irqMask_0_frame |].
  repeat split.
Qed.

(** The machine [set_vector] ends in, by the range of the vector. *)
Lemma final_set_vector_master (cfg : pc_config) (en : bool) (v : Z) (m : machine) :
  config_ok cfg = true ->
  PIC1_BASE cfg <= v < PIC1_BASE cfg + 8 ->
  final (set_vector cfg en v m)
  = final (enable_master_line (v - PIC1_BASE cfg) en m).
Proof.
  intros Hok Hv. apply config_ok_bounds in Hok.
  rewrite set_vector_eq, enable_eq.
  destruct (Z.geb_spec v (INT_VECTORS cfg)); [lia |].
  destruct (Z.leb_spec (PIC1_BASE cfg) v); [| lia].
  destruct (Z.ltb_spec v (PIC1_BASE cfg + 8)); [| lia].
  cbn [andb final fst snd]. rewrite uint32_line by exact Hv. reflexivity.
Qed.

Lemma final_set_vector_slave (cfg : pc_config) (en : bool) (v : Z) (m : machine) :
  config_ok cfg = true ->
  PIC2_BASE cfg <= v < PIC2_BASE cfg + 8 ->
  final (set_vector cfg en v m)
  = final (cascade_update (INT_PIC2 cfg - PIC1_BASE cfg)
             (final (enable_slave_line (v - PIC2_BASE cfg) en m))).
Proof.
  intros Hok Hv. apply config_ok_bounds in Hok.
  rewrite set_vector_eq, enable_eq.
  destruct (Z.geb_spec v (INT_VECTORS cfg)); [lia |].
  destruct (Z.leb_spec (PIC1_BASE cfg) v), (Z.ltb_spec v (PIC1_BASE cfg + 8));
    try lia;
    (destruct (Z.leb_spec (PIC2_BASE cfg) v); [| lia]);
    (destruct (Z.ltb_spec v (PIC2_BASE cfg + 8)); [| lia]);
    cbn [andb final fst snd]; rewrite final_bind, uint32_line by exact Hv;
    reflexivity.
Qed.

Lemma trace_set_vector (cfg : pc_config) (en : bool) (v : Z) (m : machine) :
  port_writes (trace (set_vector cfg en v m))
  = if v >=? INT_VECTORS cfg then [] else port_writes (trace (enable cfg v en m)).
Proof.
  rewrite set_vector_eq. destruct (v >=? INT_VECTORS cfg); [reflexivity |].
  cbn [trace snd]. unfold port_writes. cbn [filter is_outp].
  rewrite filter_app. cbn [filter is_outp]. apply app_nil_r.
Qed.

(** ** Isolation of the mask state *)

Lemma set_vector_table (cfg : pc_config) (en : bool) (v : Z) (m : machine) :
  int_handler_table (final (set_vector cfg en v m)) = int_handler_table m.
Proof.
  rewrite set_vector_eq. destruct (v >=? INT_VECTORS cfg); [reflexivity |].
  cbn [final fst snd]. rewrite enable_eq.
  destruct ((PIC1_BASE cfg <=? v) && (v <? PIC1_BASE cfg + 8)).
  { apply enable_master_line_frame. }
  destruct ((PIC2_BASE cfg <=? v) && (v <? PIC2_BASE cfg + 8)); [| reflexivity].
  rewrite final_bind.
  transitivity (int_handler_table
                  (final (enable_slave_line (uint32 (v - PIC2_BASE cfg)) en m))).
  - apply cascade_update_frame.
  - apply enable_slave_line_frame.
Qed.

Lemma testbit_clear_other (r k i : Z) :
  0 <= k < 8 -> 0 <= i -> i <> k ->
  Z.testbit (uint8 (clear_line k (uint8 r))) i = Z.testbit (uint8 r) i.
Proof.
  intros Hk Hi Hne. unfold clear_line.
  rewrite testbit_clear_line by assumption.
  destruct (Z.eqb_spec i k); [contradiction | apply andb_true_r].
Qed.

Lemma testbit_set_other (r k i : Z) :
  0 <= k < 8 -> 0 <= i -> i <> k ->
  Z.testbit (uint8 (set_line k (uint8 r))) i = Z.testbit (uint8 r) i.
Proof.
  intros Hk Hi Hne. unfold set_line.
  rewrite testbit_set_line by assumption.
  destruct (Z.eqb_spec i k); [contradiction | apply orb_false_r].
Qed.

Lemma cascade_update_other_bits (k i : Z) (m : machine) :
  0 <= k < 8 -> 0 <= i -> i <> k ->
  Z.testbit (mask_register_1 (final (cascade_update k m))) i
  = Z.testbit (mask_register_1 m) i
  /\ (irqMask_0 m = mask_register_1 m ->
      Z.testbit (irqMask_0 (final (cascade_update k m))) i
      = Z.testbit (irqMask_0 m) i).
Proof.
  intros Hk Hi Hne. rewrite cascade_update_eq by exact Hk.
  destruct (negb _ && _); [| destruct ((_ =? 0) && _)].
  - rewrite rmw_irqMask_0_register, rmw_irqMask_0_cache.
    unfold mask_register_1. rewrite testbit_clear_other by assumption.
    split; [reflexivity | intros ->; reflexivity].
  - rewrite rmw_irqMask_0_register, rmw_irqMask_0_cache.
    unfold mask_register_1. rewrite testbit_set_other by assumption.
    split; [reflexivity | intros ->; reflexivity].
  - split; reflexivity.
Qed.

(** C10. Masking or unmasking a vector of the master's range leaves the
    slave's cached mask and mask register as they were; masking or unmasking
    a vector of the slave's range leaves every bit of the master's mask
    register other than the cascade bit as it was, and likewise every such
    bit of the master's cached mask when that cache mirrors the register;
    and neither operation changes the handler table, whatever the vector. *)
Theorem mask_state_isolation (cfg : pc_config) (en : bool) (v : Z) (m : machine) :
  config_ok cfg = true ->
  (PIC1_BASE cfg <= v < PIC1_BASE cfg + 8 ->
   irqMask_1 (final (set_vector cfg en v m)) = irqMask_1 m
   /\ mask_register_2 (final (set_vector cfg en v m)) = mask_register_2 m)
  /\ (PIC2_BASE cfg <= v < PIC2_BASE cfg + 8 ->
      forall i, 0 <= i -> i <> INT_PIC2 cfg - PIC1_BASE cfg ->
        Z.testbit (mask_register_1 (final (set_vector cfg en v m))) i
        = Z.testbit (mask_register_1 m) i
        /\ (irqMask_0 m = mask_register_1 m ->
            Z.testbit (irqMask_0 (final (set_vector cfg en v m))) i
            = Z.testbit (irqMask_0 m) i))
  /\ int_handler_table (final (set_vector cfg en v m)) = int_handler_table m.
Proof.
  intros Hok. pose proof (config_ok_bounds cfg Hok) as Hb.
  split; [| split].
  - intros Hv. rewrite final_set_vector_master by assumption.
    split; apply enable_master_line_frame.
  - intros Hv i Hi Hne. rewrite final_set_vector_slave by assumption.
    pose proof (enable_slave_line_frame (v - PIC2_BASE cfg) en m) as [Hc0 [Hr1 _]].
    rewrite <- Hc0, <- Hr1.
    apply cascade_update_other_bits; lia.
  - apply set_vector_table.
Qed.

Lemma mask_state_isolation_witness :
  (irqMask_1 (final (set_vector pc_layout true 0x21 booted)) = irqMask_1 booted
   /\ mask_register_2 (final (set_vector pc_layout true 0x21 booted))
      = mask_register_2 booted)
  /\ (Z.testbit (mask_register_1 (final (set_vector pc_layout true 0x2b booted))) 5
      = Z.testbit (mask_register_1 booted) 5
      /\ Z.testbit (irqMask_0 (final (set_vector pc_layout true 0x2b booted))) 5
         = Z.testbit (irqMask_0 booted) 5)
  /\ int_handler_table (final (set_vector pc_layout true 0x21 booted))
     = int_handler_table booted.
Proof.
  split; [| split].
  - apply (mask_state_isolation pc_layout true 0x21 booted); [reflexivity | simpl; lia].
  - pose proof (mask_state_isolation pc_layout true 0x2b booted eq_refl) as [_ [H _]].
    assert (Hv : PIC2_BASE pc_layout <= 0x2b < PIC2_BASE pc_layout + 8) by (simpl; lia).
    assert (H5 : 5 <> INT_PIC2 pc_layout - PIC1_BASE pc_layout) by (simpl; lia).
    destruct (H Hv 5 ltac:(lia) H5) as [Hr Hc].
    split; [exact Hr | apply Hc; reflexivity].
  - apply (mask_state_isolation pc_layout true 0x21 booted). reflexivity.
Defined.

(** ** One line of one controller *)

Lemma enable_master_line_masks (k : Z) (en : bool) (m : machine) :
  0 <= k < 8 ->
  (irqMask_0 (final (enable_master_line k en m)),
   mask_register_1 (final (enable_master_line k en m)))
  = line_step k en (irqMask_0 m) (mask_register_1 m).
Proof.
  intros Hk. rewrite enable_master_line_eq by exact Hk. unfold line_step.
  destruct (Bool.eqb _ en); [| reflexivity].
  rewrite rmw_irqMask_0_cache, rmw_irqMask_0_register. reflexivity.
Qed.

Lemma enable_slave_line_masks (k : Z) (en : bool) (m : machine) :
  0 <= k < 8 ->
  (irqMask_1 (final (enable_slave_line k en m)),
   mask_register_2 (final (enable_slave_line k en m)))
  = line_step k en (irqMask_1 m) (mask_register_2 m).
Proof.
  intros Hk. rewrite enable_slave_line_eq by exact Hk. unfold line_step.
  destruct (Bool.eqb _ en); [| reflexivity].
  rewrite rmw_irqMask_1_cache, rmw_irqMask_1_register. reflexivity.
Qed.

Lemma testbit_line_step (k : Z) (en : bool) (c r i : Z) :
  0 <= k < 8 -> 0 <= i ->
  Z.testbit (snd (line_step k en c (uint8 r))) i
  = if Bool.eqb (Z.testbit c k) en
    then if en then Z.testbit (uint8 r) i && negb (i =? k)
         else Z.testbit (uint8 r) i || (i =? k)
    else Z.testbit (uint8 r) i.
Proof.
  intros Hk Hi. unfold line_step.
  destruct (Bool.eqb _ en); [| reflexivity].
  destruct en; cbn [snd]; unfold clear_line, set_line.
  - apply testbit_clear_line; assumption.
  - apply testbit_set_line; assumption.
Qed.

Lemma line_step_cached_bit (k : Z) (en : bool) (c r : Z) :
  0 <= k < 8 ->
  Z.testbit (fst (line_step k en c (uint8 r))) k = negb en.
Proof.
  intros Hk. unfold line_step.
  destruct (Bool.eqb (Z.testbit c k) en) eqn:E; cbn [fst].
  - destruct en; unfold clear_line, set_line.
    + rewrite testbit_clear_line, Z.eqb_refl by lia. apply andb_false_r.
    + rewrite testbit_set_line, Z.eqb_refl by lia. apply orb_true_r.
  - destruct (Z.testbit c k), en; try reflexivity; discriminate.
Qed.

Lemma line_step_byte (k : Z) (en : bool) (c r : Z) :
  exists r', snd (line_step k en c (uint8 r)) = uint8 r'.
Proof.
  unfold line_step. destruct (Bool.eqb _ en); cbn [snd]; eexists; reflexivity.
Qed.

(** Unmasking a line and masking it again leaves the register with the
    line's bit set and all other bits as they were, and the cache equal to
    the register. *)
Lemma line_round_trip (k c r : Z) :
  0 <= k < 8 ->
  let s1 := line_step k true c (uint8 r) in
  let s2 := line_step k false (fst s1) (snd s1) in
  fst s2 = snd s2
  /\ forall i, 0 <= i -> Z.testbit (snd s2) i = Z.testbit (uint8 r) i || (i =? k).
Proof.
  intros Hk s1 s2.
  pose proof (line_step_cached_bit k true c r Hk) as Hbit. fold s1 in Hbit.
  destruct (line_step_byte k true c r) as [r1 Hr1]. fold s1 in Hr1.
  assert (Hs2 : s2 = (uint8 (set_line k (snd s1)), uint8 (set_line k (snd s1)))).
  { subst s2. unfold line_step at 1. rewrite Hbit. reflexivity. }
  rewrite Hs2. cbn [fst snd]. split; [reflexivity |].
  intros i Hi. rewrite Hr1. unfold set_line.
  rewrite testbit_set_line by assumption. rewrite <- Hr1.
  subst s1. rewrite testbit_line_step by assumption.
  destruct (Z.testbit c k); cbn [Bool.eqb];
    destruct (Z.testbit (uint8 r) i), (i =? k); reflexivity.
Qed.

Lemma set_bit_fixed (r2 r k : Z) :
  0 <= k < 8 ->
  (forall i, 0 <= i -> Z.testbit r2 i = Z.testbit r i || (i =? k)) ->
  (r2 = r <-> Z.testbit r k = true).
Proof.
  intros Hk Hbits. split.
  - intros <-. pose proof (Hbits k ltac:(lia)) as H.
    rewrite Z.eqb_refl, orb_true_r in H. exact H.
  - intros Hset. apply Z.bits_inj'. intros i Hi. rewrite Hbits by exact Hi.
    destruct (Z.eqb_spec i k) as [-> | _].
    + rewrite Hset. reflexivity.
    + apply orb_false_r.
Qed.

(** ** Unmask, then mask *)

Lemma set_vector_master_masks (cfg : pc_config) (en : bool) (v : Z) (m : machine) :
  config_ok cfg = true ->
  PIC1_BASE cfg <= v < PIC1_BASE cfg + 8 ->
  (irqMask_0 (final (set_vector cfg en v m)),
   mask_register_1 (final (set_vector cfg en v m)))
  = line_step (v - PIC1_BASE cfg) en (irqMask_0 m) (mask_register_1 m).
Proof.
  intros Hok Hv. rewrite final_set_vector_master by assumption.
  apply enable_master_line_masks. lia.
Qed.

Lemma set_vector_slave_masks (cfg : pc_config) (en : bool) (v : Z) (m : machine) :
  config_ok cfg = true ->
  PIC2_BASE cfg <= v < PIC2_BASE cfg + 8 ->
  (irqMask_1 (final (set_vector cfg en v m)),
   mask_register_2 (final (set_vector cfg en v m)))
  = line_step (v - PIC2_BASE cfg) en (irqMask_1 m) (mask_register_2 m).
Proof.
  intros Hok Hv. rewrite final_set_vector_slave by assumption.
  pose proof (cascade_update_frame (INT_PIC2 cfg - PIC1_BASE cfg)
                (final (enable_slave_line (v - PIC2_BASE cfg) en m)))
    as [Hc [Hr _]].
  rewrite Hc, Hr. apply enable_slave_line_masks. lia.
Qed.

(** C4, amended. For a vector of the master's range, [unmask_interrupt]
    followed by [mask_interrupt] brings the master's mask register back to
    the value it had before exactly when the vector's line was masked in
    that register to begin with; the cached mask byte then comes back too,
    provided it mirrored the register. The same holds for a vector of the
    slave's range and the slave's register and cache. *)
Theorem unmask_then_mask_restores (cfg : pc_config) (v : Z) (m : machine) :
  config_ok cfg = true ->
  (PIC1_BASE cfg <= v < PIC1_BASE cfg + 8 ->
   (mask_register_1
      (final (mask_interrupt cfg v (final (unmask_interrupt cfg v m))))
    = mask_register_1 m
    <-> Z.testbit (mask_register_1 m) (v - PIC1_BASE cfg) = true)
   /\ (Z.testbit (mask_register_1 m) (v - PIC1_BASE cfg) = true ->
       irqMask_0 m = mask_register_1 m ->
       irqMask_0
         (final (mask_interrupt cfg v (final (unmask_interrupt cfg v m))))
       = irqMask_0 m))
  /\ (PIC2_BASE cfg <= v < PIC2_BASE cfg + 8 ->
      (mask_register_2
         (final (mask_interrupt cfg v (final (unmask_interrupt cfg v m))))
       = mask_register_2 m
       <-> Z.testbit (mask_register_2 m) (v - PIC2_BASE cfg) = true)
      /\ (Z.testbit (mask_register_2 m) (v - PIC2_BASE cfg) = true ->
          irqMask_1 m = mask_register_2 m ->
          irqMask_1
            (final (mask_interrupt cfg v (final (unmask_interrupt cfg v m))))
          = irqMask_1 m)).
Proof.
  intros Hok.
  change (unmask_interrupt cfg v m) with (set_vector cfg true v m).
  change (mask_interrupt cfg v (final (set_vector cfg true v m)))
    with (set_vector cfg false v (final (set_vector cfg true v m))).
  split; intros Hv.
  - pose proof (set_vector_master_masks cfg true v m Hok Hv) as H1.
    pose proof (set_vector_master_masks cfg false v
                  (final (set_vector cfg true v m)) Hok Hv) as H2.
    apply (f_equal fst) in H1 as Hf; apply (f_equal snd) in H1 as Hs.
    cbn [fst snd] in Hf, Hs. rewrite Hf, Hs in H2.
    destruct (line_round_trip (v - PIC1_BASE cfg) (irqMask_0 m)
                (ports m (PIC1 + 1)) ltac:(lia)) as [Hcr Hbits].
    fold (mask_register_1 m) in Hcr, Hbits.
    rewrite <- H2 in Hcr, Hbits. cbn [fst snd] in Hcr, Hbits.
    pose proof (set_bit_fixed _ _ (v - PIC1_BASE cfg) ltac:(lia) Hbits) as Hfix.
    split; [exact Hfix |].
    intros Hset Hcoh. rewrite Hcr, Hcoh. apply Hfix. exact Hset.
  - pose proof (set_vector_slave_masks cfg true v m Hok Hv) as H1.
    pose proof (set_vector_slave_masks cfg false v
                  (final (set_vector cfg true v m)) Hok Hv) as H2.
    apply (f_equal fst) in H1 as Hf; apply (f_equal snd) in H1 as Hs.
    cbn [fst snd] in Hf, Hs. rewrite Hf, Hs in H2.
    destruct (line_round_trip (v - PIC2_BASE cfg) (irqMask_1 m)
                (ports m (PIC2 + 1)) ltac:(lia)) as [Hcr Hbits].
    fold (mask_register_2 m) in Hcr, Hbits.
    rewrite <- H2 in Hcr, Hbits. cbn [fst snd] in Hcr, Hbits.
    pose proof (set_bit_fixed _ _ (v - PIC2_BASE cfg) ltac:(lia) Hbits) as Hfix.
    split; [exact Hfix |].
    intros Hset Hcoh. rewrite Hcr, Hcoh. apply Hfix. exact Hset.
Qed.

Lemma unmask_then_mask_restores_witness :
  mask_register_2
    (final (mask_interrupt pc_layout 0x2b (final (unmask_interrupt pc_layout 0x2b booted))))
  = mask_register_2 booted
  /\ irqMask_1
       (final (mask_interrupt pc_layout 0x2b (final (unmask_interrupt pc_layout 0x2b booted))))
     = irqMask_1 booted.
Proof.
  pose proof (unmask_then_mask_restores pc_layout 0x2b booted eq_refl) as [_ H].
  assert (Hv : PIC2_BASE pc_layout <= 0x2b < PIC2_BASE pc_layout + 8) by (simpl; lia).
  destruct (H Hv) as [Hreg Hcache].
  split.
  - apply Hreg. reflexivity.
  - apply Hcache; reflexivity.
Defined.

(** C4 as stated fails for a line that is already unmasked: with vector
    0x21 enabled, unmasking and masking 0x21 leaves the master's mask
    register at 0xff, not at the 0xfd it held before. *)
Lemma unmask_then_mask_counterexample :
  let m := final (unmask_interrupt pc_layout 0x21 booted) in
  PIC1_BASE pc_layout <= 0x21 < PIC1_BASE pc_layout + 8
  /\ mask_register_1 m = 0xfd
  /\ mask_register_1
       (final (mask_interrupt pc_layout 0x21 (final (unmask_interrupt pc_layout 0x21 m))))
     = 0xff
  /\ mask_register_1
       (final (mask_interrupt pc_layout 0x21 (final (unmask_interrupt pc_layout 0x21 m))))
     <> mask_register_1 m.
Proof.
  cbv zeta. split; [simpl; lia |].
  split; [reflexivity |]. split; [reflexivity |].
  vm_compute. discriminate.
Qed.

(** ** The cascade bit *)

(** What the bookkeeping at the end of the slave branch does to the
    master's cached cascade bit: it clears the bit when the slave's cached
    mask is neither 0xff nor 0, leaves it alone when that mask is 0xff, and
    inverts it when that mask is 0. *)
Lemma cascade_update_bit (k : Z) (m : machine) :
  0 <= k < 8 ->
  Z.testbit (irqMask_0 (final (cascade_update k m))) k
  = if irqMask_1 m =? 0xff then Z.testbit (irqMask_0 m) k
    else if irqMask_1 m =? 0 then negb (Z.testbit (irqMask_0 m) k)
    else false.
Proof.
  intros Hk. rewrite cascade_update_eq by exact Hk.
  destruct (Z.eqb_spec (irqMask_1 m) 0xff) as [Hff | Hnff].
  - rewrite Hff. cbn [negb andb Z.eqb]. reflexivity.
  - cbn [negb andb].
    destruct (Z.testbit (irqMask_0 m) k) eqn:Hbit.
    + rewrite rmw_irqMask_0_cache. unfold clear_line, mask_register_1.
      rewrite testbit_clear_line, Z.eqb_refl, andb_false_r by lia.
      destruct (irqMask_1 m =? 0); reflexivity.
    + destruct (irqMask_1 m =? 0); cbn [negb andb].
      * rewrite rmw_irqMask_0_cache. unfold set_line, mask_register_1.
        rewrite testbit_set_line, Z.eqb_refl by lia. apply orb_true_r.
      * exact Hbit.
Qed.

(** The same for a whole call: after masking or unmasking a slave vector,
    under any layout, the master's cached cascade bit is what it was when
    the slave's cached mask is now 0xff, the inverse of what it was when
    that mask is now 0, and clear otherwise. *)
Lemma set_vector_slave_cascade_bit (cfg : pc_config) (en : bool) (v : Z) (m : machine) :
  config_ok cfg = true ->
  PIC2_BASE cfg <= v < PIC2_BASE cfg + 8 ->
  Z.testbit (irqMask_0 (final (set_vector cfg en v m))) (INT_PIC2 cfg - PIC1_BASE cfg)
  = if irqMask_1 (final (set_vector cfg en v m)) =? 0xff
    then Z.testbit (irqMask_0 m) (INT_PIC2 cfg - PIC1_BASE cfg)
    else if irqMask_1 (final (set_vector cfg en v m)) =? 0
         then negb (Z.testbit (irqMask_0 m) (INT_PIC2 cfg - PIC1_BASE cfg))
         else false.
Proof.
  intros Hok Hv. pose proof (config_ok_bounds cfg Hok) as Hb.
  rewrite final_set_vector_slave by assumption.
  pose proof (cascade_update_frame (INT_PIC2 cfg - PIC1_BASE cfg)
                (final (enable_slave_line (v - PIC2_BASE cfg) en m))) as [Hc1 _].
  pose proof (enable_slave_line_frame (v - PIC2_BASE cfg) en m) as [Hc0 _].
  rewrite Hc1, cascade_update_bit, Hc0 by lia. reflexivity.
Qed.

(** C1, on the code. Starting from the initialised controllers: after
    unmasking slave vector 0x28 and masking it again every slave line is
    disabled (cached slave mask 0xff) and yet bit 2 of the master's mask is
    still clear, in the cache and in the register; and after unmasking all
    eight slave vectors every slave line is enabled (cached slave mask 0)
    and yet bit 2 of the master's mask is set. *)
Theorem cascade_bit_out_of_step :
  let m1 := run_all [unmask_interrupt pc_layout 0x28; mask_interrupt pc_layout 0x28]
              booted in
  let m2 := run_all (List.map (unmask_interrupt pc_layout) slave_vectors) booted in
  (irqMask_1 m1 = 0xff /\ mask_register_2 m1 = 0xff
   /\ Z.testbit (irqMask_0 m1) 2 = false /\ Z.testbit (mask_register_1 m1) 2 = false)
  /\ (irqMask_1 m2 = 0 /\ mask_register_2 m2 = 0
      /\ Z.testbit (irqMask_0 m2) 2 = true /\ Z.testbit (mask_register_1 m2) 2 = true).
Proof. vm_compute. repeat split. Qed.

(** ** Repeated calls *)

(** C2, on the code. With all eight slave lines unmasked, a further
    [unmask_interrupt] of slave vector 0x2f (its second in a row) succeeds
    but writes the master's mask register again, and so does every further
    identical call: the cascade bit is inverted each time. *)
Theorem repeated_unmask_writes_again :
  let m := run_all (List.map (unmask_interrupt pc_layout) slave_vectors) booted in
  let again := unmask_interrupt pc_layout 0x2f m in
  result again = NO_ERROR
  /\ port_writes (trace again) = [EvOutp (PIC1 + 1) 0xfb]
  /\ port_writes (trace (unmask_interrupt pc_layout 0x2f (final again)))
     = [EvOutp (PIC1 + 1) 0xff].
Proof. vm_compute. repeat split. Qed.

Lemma eqb_negb_self (b : bool) : Bool.eqb (negb b) b = false.
Proof. destruct b; reflexivity. Qed.

Lemma set_vector_master_cached_bit (cfg : pc_config) (en : bool) (v : Z) (m : machine) :
  config_ok cfg = true ->
  PIC1_BASE cfg <= v < PIC1_BASE cfg + 8 ->
  Z.testbit (irqMask_0 (final (set_vector cfg en v m))) (v - PIC1_BASE cfg) = negb en.
Proof.
  intros Hok Hv.
  pose proof (f_equal fst (set_vector_master_masks cfg en v m Hok Hv)) as H.
  cbn [fst] in H. rewrite H. apply line_step_cached_bit. lia.
Qed.

Lemma set_vector_slave_cached_bit (cfg : pc_config) (en : bool) (v : Z) (m : machine) :
  config_ok cfg = true ->
  PIC2_BASE cfg <= v < PIC2_BASE cfg + 8 ->
  Z.testbit (irqMask_1 (final (set_vector cfg en v m))) (v - PIC2_BASE cfg) = negb en.
Proof.
  intros Hok Hv.
  pose proof (f_equal fst (set_vector_slave_masks cfg en v m Hok Hv)) as H.
  cbn [fst] in H. rewrite H. apply line_step_cached_bit. lia.
Qed.

(** Once the bookkeeping has run, running it again writes nothing, unless
    the slave's cached mask is 0. *)
Lemma cascade_update_settled (k : Z) (m : machine) :
  0 <= k < 8 ->
  irqMask_1 m <> 0 ->
  cascade_update k (final (cascade_update k m))
  = (tt, final (cascade_update k m), []).
Proof.
  intros Hk Hnz.
  pose proof (cascade_update_bit k m Hk) as Hbit.
  pose proof (cascade_update_frame k m) as [Hc1 _].
  rewrite (cascade_update_eq k (final _)) by exact Hk.
  rewrite Hc1, Hbit.
  destruct (Z.eqb_spec (irqMask_1 m) 0) as [H0 | _]; [contradiction |].
  destruct (Z.eqb_spec (irqMask_1 m) 0xff) as [Hff | Hnff]; cbn [negb andb];
    reflexivity.
Qed.

Lemma vector_cases (cfg : pc_config) (v : Z) :
  v >= INT_VECTORS cfg
  \/ PIC1_BASE cfg <= v < PIC1_BASE cfg + 8
  \/ PIC2_BASE cfg <= v < PIC2_BASE cfg + 8
  \/ (v < INT_VECTORS cfg
      /\ ~ (PIC1_BASE cfg <= v < PIC1_BASE cfg + 8)
      /\ ~ (PIC2_BASE cfg <= v < PIC2_BASE cfg + 8)).
Proof. lia. Qed.

Lemma set_vector_unbacked (cfg : pc_config) (en : bool) (v : Z) (m : machine) :
  v < INT_VECTORS cfg ->
  ~ (PIC1_BASE cfg <= v < PIC1_BASE cfg + 8) ->
  ~ (PIC2_BASE cfg <= v < PIC2_BASE cfg + 8) ->
  set_vector cfg en v m = (NO_ERROR, m, [EvLock; EvUnlock]).
Proof.
  intros Hv H1 H2. rewrite set_vector_eq, enable_eq.
  destruct (Z.geb_spec v (INT_VECTORS cfg)) as [Hge | _]; [lia |].
  destruct (Z.leb_spec (PIC1_BASE cfg) v), (Z.ltb_spec v (PIC1_BASE cfg + 8));
    try lia;
    destruct (Z.leb_spec (PIC2_BASE cfg) v), (Z.ltb_spec v (PIC2_BASE cfg + 8));
    try lia; reflexivity.
Qed.

Lemma writes_set_vector_master (cfg : pc_config) (en : bool) (v : Z) (m : machine) :
  config_ok cfg = true ->
  PIC1_BASE cfg <= v < PIC1_BASE cfg + 8 ->
  port_writes (trace (set_vector cfg en v m))
  = port_writes (trace (enable_master_line (v - PIC1_BASE cfg) en m)).
Proof.
  intros Hok Hv. apply config_ok_bounds in Hok.
  rewrite trace_set_vector, enable_eq.
  destruct (Z.geb_spec v (INT_VECTORS cfg)); [lia |].
  destruct (Z.leb_spec (PIC1_BASE cfg) v); [| lia].
  destruct (Z.ltb_spec v (PIC1_BASE cfg + 8)); [| lia].
  cbn [andb]. rewrite uint32_line by exact Hv. reflexivity.
Qed.

Lemma writes_set_vector_slave (cfg : pc_config) (en : bool) (v : Z) (m : machine) :
  config_ok cfg = true ->
  PIC2_BASE cfg <= v < PIC2_BASE cfg + 8 ->
  port_writes (trace (set_vector cfg en v m))
  = port_writes
      (trace (enable_slave_line (v - PIC2_BASE cfg) en m)
       ++ trace (cascade_update (INT_PIC2 cfg - PIC1_BASE cfg)
                   (final (enable_slave_line (v - PIC2_BASE cfg) en m)))).
Proof.
  intros Hok Hv. apply config_ok_bounds in Hok.
  rewrite trace_set_vector, enable_eq.
  destruct (Z.geb_spec v (INT_VECTORS cfg)); [lia |].
  destruct (Z.leb_spec (PIC1_BASE cfg) v), (Z.ltb_spec v (PIC1_BASE cfg + 8));
    try lia;
    (destruct (Z.leb_spec (PIC2_BASE cfg) v); [| lia]);
    (destruct (Z.ltb_spec v (PIC2_BASE cfg + 8)); [| lia]);
    cbn [andb]; rewrite trace_bind, uint32_line by exact Hv; reflexivity.
Qed.

(** The part of C2 the code keeps: a call that repeats the one before it
    writes no port, for every vector and either operation, except when the
    vector belongs to the slave and the slave's cached mask is 0 after the
    first call. *)
Lemma repeated_call_no_write (cfg : pc_config) (en : bool) (v : Z) (m : machine) :
  config_ok cfg = true ->
  (PIC2_BASE cfg <= v < PIC2_BASE cfg + 8 ->
   irqMask_1 (final (set_vector cfg en v m)) <> 0) ->
  port_writes (trace (set_vector cfg en v (final (set_vector cfg en v m)))) = [].
Proof.
  intros Hok Hnz. pose proof (config_ok_bounds cfg Hok) as Hb.
  destruct (vector_cases cfg v) as [Hge | [Hv | [Hv | [Hlt [Hn1 Hn2]]]]].
  - rewrite trace_set_vector.
    destruct (Z.geb_spec v (INT_VECTORS cfg)); [reflexivity | lia].
  - (* a master line *)
    rewrite writes_set_vector_master by assumption.
    rewrite enable_master_line_eq by lia.
    rewrite set_vector_master_cached_bit, eqb_negb_self by assumption.
    reflexivity.
  - (* a slave line *)
    specialize (Hnz Hv).
    rewrite writes_set_vector_slave by assumption.
    rewrite enable_slave_line_eq by lia.
    rewrite set_vector_slave_cached_bit, eqb_negb_self by assumption.
    cbn [trace final fst snd app].
    rewrite final_set_vector_slave in Hnz |- * by assumption.
    pose proof (cascade_update_frame (INT_PIC2 cfg - PIC1_BASE cfg)
                  (final (enable_slave_line (v - PIC2_BASE cfg) en m))) as [Hc1 _].
    rewrite Hc1 in Hnz.
    rewrite cascade_update_settled by (assumption || lia). reflexivity.
  - rewrite !set_vector_unbacked by assumption. reflexivity.
Qed.

Lemma mask_twice_no_write (cfg : pc_config) (v : Z) (m : machine) :
  config_ok cfg = true ->
  port_writes (trace (mask_interrupt cfg v (final (mask_interrupt cfg v m)))) = [].
Proof.
  intros Hok. apply (repeated_call_no_write cfg false v m Hok).
  intros Hv H0.
  pose proof (set_vector_slave_cached_bit cfg false v m Hok Hv) as Hbit.
  rewrite H0, Z.bits_0 in Hbit. discriminate.
Qed.

(** ** The caches mirror the registers *)

Lemma line_step_coherent (k : Z) (en : bool) (c r : Z) :
  c = r -> fst (line_step k en c r) = snd (line_step k en c r).
Proof. intros ->. unfold line_step. destruct (Bool.eqb _ en); reflexivity. Qed.

Lemma cascade_update_coherent (k : Z) (m : machine) :
  0 <= k < 8 ->
  irqMask_0 m = mask_register_1 m ->
  irqMask_0 (final (cascade_update k m)) = mask_register_1 (final (cascade_update k m)).
Proof.
  intros Hk Hc. rewrite cascade_update_eq by exact Hk.
  destruct (negb _ && _); [| destruct ((_ =? 0) && _)].
  - rewrite rmw_irqMask_0_cache, rmw_irqMask_0_register. reflexivity.
  - rewrite rmw_irqMask_0_cache, rmw_irqMask_0_register. reflexivity.
  - exact Hc.
Qed.

(** Initialisation makes the caches mirror the registers, and masking and
    unmasking keep it so. *)
Lemma set_vector_coherent (cfg : pc_config) (en : bool) (v : Z) (m : machine) :
  config_ok cfg = true ->
  coherent m -> coherent (final (set_vector cfg en v m)).
Proof.
  intros Hok [H0 H1]. pose proof (config_ok_bounds cfg Hok) as Hb.
  destruct (vector_cases cfg v) as [Hge | [Hv | [Hv | [Hlt [Hn1 Hn2]]]]].
  - rewrite set_vector_eq.
    destruct (Z.geb_spec v (INT_VECTORS cfg)); [split; assumption | lia].
  - pose proof (set_vector_master_masks cfg en v m Hok Hv) as Hm.
    pose proof (line_step_coherent (v - PIC1_BASE cfg) en _ _ H0) as Hl.
    rewrite <- Hm in Hl. cbn [fst snd] in Hl.
    split; [exact Hl |].
    rewrite final_set_vector_master by assumption.
    pose proof (enable_master_line_frame (v - PIC1_BASE cfg) en m) as [Hc [Hr _]].
    rewrite Hc. unfold mask_register_2 in Hr |- *. rewrite Hr. exact H1.
  - pose proof (set_vector_slave_masks cfg en v m Hok Hv) as Hm.
    pose proof (line_step_coherent (v - PIC2_BASE cfg) en _ _ H1) as Hl.
    rewrite <- Hm in Hl. cbn [fst snd] in Hl.
    split; [| exact Hl].
    rewrite final_set_vector_slave by assumption.
    apply cascade_update_coherent; [lia |].
    pose proof (enable_slave_line_frame (v - PIC2_BASE cfg) en m) as [Hc [Hr _]].
    rewrite Hc, Hr. exact H0.
  - rewrite set_vector_unbacked by assumption. split; assumption.
Qed.

(** * Further properties of the driver *)

(** ** Masking everything *)

(** X1. [platform_mask_irqs] disables every line whatever the machine it
    starts from: both mask registers read 0xff afterwards and both cached
    masks are 0xff; its port writes are exactly the two 0xff to the mask
    registers, and it changes neither another port nor the handler table. *)
Theorem platform_mask_irqs_masks_all (m : machine) :
  mask_register_1 (final (platform_mask_irqs m)) = 0xff
  /\ mask_register_2 (final (platform_mask_irqs m)) = 0xff
  /\ irqMask_0 (final (platform_mask_irqs m)) = 0xff
  /\ irqMask_1 (final (platform_mask_irqs m)) = 0xff
  /\ port_writes (trace (platform_mask_irqs m))
     = [EvOutp (PIC1 + 1) 0xff; EvOutp (PIC2 + 1) 0xff]
  /\ (forall p, p <> PIC1 + 1 -> p <> PIC2 + 1 ->
      ports (final (platform_mask_irqs m)) p = ports m p)
  /\ int_handler_table (final (platform_mask_irqs m)) = int_handler_table m.
Proof.
  repeat split.
  intros p H1 H2. cbn.
  change 161 with (PIC2 + 1). change 33 with (PIC1 + 1).
  destruct (Z.eqb_spec p (PIC2 + 1)); [contradiction |].
  destruct (Z.eqb_spec p (PIC1 + 1)); [contradiction | reflexivity].
Qed.

(** ** The mask state along a run *)

Lemma run_all_calls_invariant (cfg : pc_config) (rs : list request) (m : machine) :
  config_ok cfg = true ->
  coherent m ->
  coherent (run_all (calls cfg rs) m)
  /\ int_handler_table (run_all (calls cfg rs) m) = int_handler_table m.
Proof.
  intros Hok. revert m.
  induction rs as [| [en v] rs IH]; intros m Hc.
  - split; [exact Hc | reflexivity].
  - cbn [calls List.map run_all fst snd].
    destruct (IH (final (set_vector cfg en v m))
                 (set_vector_coherent cfg en v m Hok Hc)) as [Hc' Ht'].
    split; [exact Hc' |].
    unfold calls in Ht'. rewrite Ht'. apply set_vector_table.
Qed.

(** X2. From [platform_init_interrupts] on, after any sequence of
    [mask_interrupt] and [unmask_interrupt] calls on any vectors (valid or
    not), each cached mask equals what its mask register reads, both are
    bytes, and the handler table is the one from before the
    initialisation. *)
Theorem caches_mirror_registers (cfg : pc_config) (rs : list request) (m : machine) :
  config_ok cfg = true ->
  coherent (run_all (calls cfg rs) (final (platform_init_interrupts cfg m)))
  /\ 0 <= irqMask_0 (run_all (calls cfg rs) (final (platform_init_interrupts cfg m))) < 256
  /\ 0 <= irqMask_1 (run_all (calls cfg rs) (final (platform_init_interrupts cfg m))) < 256
  /\ int_handler_table (run_all (calls cfg rs) (final (platform_init_interrupts cfg m)))
     = int_handler_table m.
Proof.
  intros Hok.
  destruct (run_all_calls_invariant cfg rs _ Hok (init_coherent cfg m))
    as [[H0 H1] Ht].
  split; [split; assumption |].
  split; [rewrite H0; apply uint8_range |].
  split; [rewrite H1; apply uint8_range |].
  rewrite Ht. reflexivity.
Qed.

Lemma caches_mirror_registers_witness :
  coherent (run_all (calls pc_layout [(true, 0x21); (true, 0x2b); (false, 0x21); (true, 0x40)])
              (final (platform_init_interrupts pc_layout power_on))).
Proof.
  apply (caches_mirror_registers pc_layout
           [(true, 0x21); (true, 0x2b); (false, 0x21); (true, 0x40)] power_on).
  reflexivity.
Defined.

(** ** The bit of the line, and the other bits *)

Lemma line_step_bits (k : Z) (en : bool) (r i : Z) :
  0 <= k < 8 -> 0 <= i ->
  Z.testbit (snd (line_step k en (uint8 r) (uint8 r))) i
  = if i =? k then negb en else Z.testbit (uint8 r) i.
Proof.
  intros Hk Hi. rewrite testbit_line_step by assumption.
  destruct (Z.eqb_spec i k) as [-> | Hne].
  - destruct (Z.testbit (uint8 r) k), en; reflexivity.
  - destruct (Bool.eqb _ en); [| reflexivity].
    destruct en; [apply andb_true_r | apply orb_false_r].
Qed.

Lemma set_vector_master_bits (cfg : pc_config) (en : bool) (v : Z) (m : machine) :
  config_ok cfg = true ->
  PIC1_BASE cfg <= v < PIC1_BASE cfg + 8 ->
  irqMask_0 m = mask_register_1 m ->
  irqMask_0 (final (set_vector cfg en v m))
  = mask_register_1 (final (set_vector cfg en v m))
  /\ forall i, 0 <= i ->
       Z.testbit (mask_register_1 (final (set_vector cfg en v m))) i
       = if i =? v - PIC1_BASE cfg then negb en
         else Z.testbit (mask_register_1 m) i.
Proof.
  intros Hok Hv Hc.
  pose proof (set_vector_master_masks cfg en v m Hok Hv) as Hm.
  rewrite Hc in Hm.
  pose proof (f_equal fst Hm) as Hf. pose proof (f_equal snd Hm) as Hs.
  cbn [fst snd] in Hf, Hs. split.
  - rewrite Hf, Hs. apply line_step_coherent. reflexivity.
  - intros i Hi. rewrite Hs. unfold mask_register_1.
    apply line_step_bits; [lia | exact Hi].
Qed.

Lemma set_vector_slave_bits (cfg : pc_config) (en : bool) (v : Z) (m : machine) :
  config_ok cfg = true ->
  PIC2_BASE cfg <= v < PIC2_BASE cfg + 8 ->
  irqMask_1 m = mask_register_2 m ->
  irqMask_1 (final (set_vector cfg en v m))
  = mask_register_2 (final (set_vector cfg en v m))
  /\ forall i, 0 <= i ->
       Z.testbit (mask_register_2 (final (set_vector cfg en v m))) i
       = if i =? v - PIC2_BASE cfg then negb en
         else Z.testbit (mask_register_2 m) i.
Proof.
  intros Hok Hv Hc.
  pose proof (set_vector_slave_masks cfg en v m Hok Hv) as Hm.
  rewrite Hc in Hm.
  pose proof (f_equal fst Hm) as Hf. pose proof (f_equal snd Hm) as Hs.
  cbn [fst snd] in Hf, Hs. split.
  - rewrite Hf, Hs. apply line_step_coherent. reflexivity.
  - intros i Hi. rewrite Hs. unfold mask_register_2.
    apply line_step_bits; [lia | exact Hi].
Qed.

(** X3. When the cached mask of the owning controller mirrors its register,
    [unmask_interrupt] of a hardware-backed vector leaves that register
    with the vector's bit clear, [mask_interrupt] leaves it with the bit
    set, and in both cases every other bit of the register is as before and
    the cache mirrors the register again. *)
Theorem set_vector_sets_the_line (cfg : pc_config) (en : bool) (v : Z) (m : machine) :
  config_ok cfg = true ->
  (PIC1_BASE cfg <= v < PIC1_BASE cfg + 8 ->
   irqMask_0 m = mask_register_1 m ->
   irqMask_0 (final (set_vector cfg en v m))
   = mask_register_1 (final (set_vector cfg en v m))
   /\ forall i, 0 <= i ->
        Z.testbit (mask_register_1 (final (set_vector cfg en v m))) i
        = if i =? v - PIC1_BASE cfg then negb en
          else Z.testbit (mask_register_1 m) i)
  /\ (PIC2_BASE cfg <= v < PIC2_BASE cfg + 8 ->
      irqMask_1 m = mask_register_2 m ->
      irqMask_1 (final (set_vector cfg en v m))
      = mask_register_2 (final (set_vector cfg en v m))
      /\ forall i, 0 <= i ->
           Z.testbit (mask_register_2 (final (set_vector cfg en v m))) i
           = if i =? v - PIC2_BASE cfg then negb en
             else Z.testbit (mask_register_2 m) i).
Proof.
  intros Hok. split; intros Hv Hc.
  - apply set_vector_master_bits; assumption.
  - apply set_vector_slave_bits; assumption.
Qed.

Lemma set_vector_sets_the_line_witness :
  Z.testbit (mask_register_2 (final (set_vector pc_layout true 0x2b booted))) 3 = false
  /\ Z.testbit (mask_register_2 (final (set_vector pc_layout true 0x2b booted))) 4
     = Z.testbit (mask_register_2 booted) 4.
Proof.
  pose proof (set_vector_sets_the_line pc_layout true 0x2b booted eq_refl) as [_ H].
  assert (Hv : PIC2_BASE pc_layout <= 0x2b < PIC2_BASE pc_layout + 8) by (simpl; lia).
  destruct (H Hv eq_refl) as [_ Hbits].
  split.
  - exact (Hbits 3 ltac:(lia)).
  - exact (Hbits 4 ltac:(lia)).
Defined.

(** ** Requests on different lines *)

(** X4. Two requests for different vectors of the same controller may be
    made in either order: starting from a cache that mirrors the register,
    the controller's mask register ends with the same value, and so does
    its cached mask. *)
Theorem set_vector_commute (cfg : pc_config) (en1 en2 : bool) (v w : Z) (m : machine) :
  config_ok cfg = true ->
  v <> w ->
  (PIC1_BASE cfg <= v < PIC1_BASE cfg + 8 ->
   PIC1_BASE cfg <= w < PIC1_BASE cfg + 8 ->
   irqMask_0 m = mask_register_1 m ->
   mask_register_1 (final (set_vector cfg en2 w (final (set_vector cfg en1 v m))))
   = mask_register_1 (final (set_vector cfg en1 v (final (set_vector cfg en2 w m))))
   /\ irqMask_0 (final (set_vector cfg en2 w (final (set_vector cfg en1 v m))))
      = irqMask_0 (final (set_vector cfg en1 v (final (set_vector cfg en2 w m)))))
  /\ (PIC2_BASE cfg <= v < PIC2_BASE cfg + 8 ->
      PIC2_BASE cfg <= w < PIC2_BASE cfg + 8 ->
      irqMask_1 m = mask_register_2 m ->
      mask_register_2 (final (set_vector cfg en2 w (final (set_vector cfg en1 v m))))
      = mask_register_2 (final (set_vector cfg en1 v (final (set_vector cfg en2 w m))))
      /\ irqMask_1 (final (set_vector cfg en2 w (final (set_vector cfg en1 v m))))
         = irqMask_1 (final (set_vector cfg en1 v (final (set_vector cfg en2 w m))))).
Proof.
  intros Hok Hvw. split; intros Hv Hw Hc.
  - destruct (set_vector_master_bits cfg en1 v m Hok Hv Hc) as [Hcv Hbv].
    destruct (set_vector_master_bits cfg en2 w m Hok Hw Hc) as [Hcw Hbw].
    destruct (set_vector_master_bits cfg en2 w _ Hok Hw Hcv) as [Hcvw Hbvw].
    destruct (set_vector_master_bits cfg en1 v _ Hok Hv Hcw) as [Hcwv Hbwv].
    assert (Hreg :
      mask_register_1 (final (set_vector cfg en2 w (final (set_vector cfg en1 v m))))
      = mask_register_1 (final (set_vector cfg en1 v (final (set_vector cfg en2 w m))))).
    { apply Z.bits_inj'. intros i Hi.
      rewrite Hbvw, Hbwv, Hbv, Hbw by exact Hi.
      destruct (Z.eqb_spec i (w - PIC1_BASE cfg)), (Z.eqb_spec i (v - PIC1_BASE cfg));
        try reflexivity; lia. }
    split; [exact Hreg |]. rewrite Hcvw, Hcwv. exact Hreg.
  - destruct (set_vector_slave_bits cfg en1 v m Hok Hv Hc) as [Hcv Hbv].
    destruct (set_vector_slave_bits cfg en2 w m Hok Hw Hc) as [Hcw Hbw].
    destruct (set_vector_slave_bits cfg en2 w _ Hok Hw Hcv) as [Hcvw Hbvw].
    destruct (set_vector_slave_bits cfg en1 v _ Hok Hv Hcw) as [Hcwv Hbwv].
    assert (Hreg :
      mask_register_2 (final (set_vector cfg en2 w (final (set_vector cfg en1 v m))))
      = mask_register_2 (final (set_vector cfg en1 v (final (set_vector cfg en2 w m))))).
    { apply Z.bits_inj'. intros i Hi.
      rewrite Hbvw, Hbwv, Hbv, Hbw by exact Hi.
      destruct (Z.eqb_spec i (w - PIC2_BASE cfg)), (Z.eqb_spec i (v - PIC2_BASE cfg));
        try reflexivity; lia. }
    split; [exact Hreg |]. rewrite Hcvw, Hcwv. exact Hreg.
Qed.

Lemma set_vector_commute_witness :
  mask_register_1 (final (set_vector pc_layout false 0x24
                            (final (set_vector pc_layout true 0x21 booted))))
  = mask_register_1 (final (set_vector pc_layout true 0x21
                              (final (set_vector pc_layout false 0x24 booted))))
  /\ irqMask_0 (final (set_vector pc_layout false 0x24
                        (final (set_vector pc_layout true 0x21 booted))))
     = irqMask_0 (final (set_vector pc_layout true 0x21
                           (final (set_vector pc_layout false 0x24 booted)))).
Proof.
  assert (Hne : 0x21 <> 0x24) by lia.
  pose proof (set_vector_commute pc_layout true false 0x21 0x24 booted eq_refl Hne)
    as [H _].
  apply H; [simpl; lia | simpl; lia | reflexivity].
Defined.

(** ** A request made twice *)

Lemma bind_run {A B : Type} (c : M A) (k : A -> M B) (m m1 m2 : machine)
    (a : A) (b : B) (t1 t2 : list event) :
  c m = (a, m1, t1) -> k a m1 = (b, m2, t2) -> bind c k m = (b, m2, t1 ++ t2).
Proof. intros Hc Hk. unfold bind. rewrite Hc, Hk. reflexivity. Qed.

Lemma set_vector_repeated (cfg : pc_config) (en : bool) (v : Z) (m : machine) :
  config_ok cfg = true ->
  v < INT_VECTORS cfg ->
  (PIC2_BASE cfg <= v < PIC2_BASE cfg + 8 ->
   irqMask_1 (final (set_vector cfg en v m)) <> 0) ->
  set_vector cfg en v (final (set_vector cfg en v m))
  = (NO_ERROR, final (set_vector cfg en v m), [EvLock; EvUnlock]).
Proof.
  intros Hok Hlt Hnz. pose proof (config_ok_bounds cfg Hok) as Hb.
  assert (Henable :
    enable cfg v en (final (set_vector cfg en v m))
    = (tt, final (set_vector cfg en v m), [])).
  { rewrite enable_eq.
    destruct (vector_cases cfg v) as [Hge | [Hv | [Hv | [_ [Hn1 Hn2]]]]]; [lia | | |].
    - destruct (Z.leb_spec (PIC1_BASE cfg) v); [| lia].
      destruct (Z.ltb_spec v (PIC1_BASE cfg + 8)); [| lia]. cbn [andb].
      rewrite uint32_line, enable_master_line_eq by lia.
      rewrite set_vector_master_cached_bit, eqb_negb_self by assumption.
      reflexivity.
    - specialize (Hnz Hv).
      destruct (Z.leb_spec (PIC1_BASE cfg) v), (Z.ltb_spec v (PIC1_BASE cfg + 8));
        try lia;
        (destruct (Z.leb_spec (PIC2_BASE cfg) v); [| lia]);
        (destruct (Z.ltb_spec v (PIC2_BASE cfg + 8)); [| lia]);
        cbn [andb]; rewrite uint32_line by exact Hv;
        (apply (bind_run _ _ _ (final (set_vector cfg en v m)) _ tt tt [] []);
         [ rewrite enable_slave_line_eq by lia;
           rewrite set_vector_slave_cached_bit, eqb_negb_self by assumption;
           reflexivity
         | rewrite final_set_vector_slave in Hnz |- * by assumption;
           pose proof (cascade_update_frame (INT_PIC2 cfg - PIC1_BASE cfg)
                         (final (enable_slave_line (v - PIC2_BASE cfg) en m)))
             as [Hc1 _];
           rewrite Hc1 in Hnz;
           apply cascade_update_settled; [lia | exact Hnz] ]).
    - destruct (Z.leb_spec (PIC1_BASE cfg) v), (Z.ltb_spec v (PIC1_BASE cfg + 8));
        try lia;
        destruct (Z.leb_spec (PIC2_BASE cfg) v), (Z.ltb_spec v (PIC2_BASE cfg + 8));
        try lia; reflexivity. }
  rewrite (set_vector_eq cfg en v (final _)).
  destruct (Z.geb_spec v (INT_VECTORS cfg)); [lia |].
  rewrite Henable. reflexivity.
Qed.

(** X5. A request that repeats the one just made is answered with success
    and does nothing but take and release the lock: the machine stays as
    the first call left it. This holds for [mask_interrupt] on every vector
    below [INT_VECTORS], and for [unmask_interrupt] on every such vector
    unless it belongs to the slave and the slave's cached mask is 0 once the
    first call is done. *)
Theorem repeated_request_is_noop (cfg : pc_config) (v : Z) (m : machine) :
  config_ok cfg = true ->
  v < INT_VECTORS cfg ->
  mask_interrupt cfg v (final (mask_interrupt cfg v m))
  = (NO_ERROR, final (mask_interrupt cfg v m), [EvLock; EvUnlock])
  /\ ((PIC2_BASE cfg <= v < PIC2_BASE cfg + 8 ->
       irqMask_1 (final (unmask_interrupt cfg v m)) <> 0) ->
      unmask_interrupt cfg v (final (unmask_interrupt cfg v m))
      = (NO_ERROR, final (unmask_interrupt cfg v m), [EvLock; EvUnlock])).
Proof.
  intros Hok Hlt. split.
  - apply (set_vector_repeated cfg false v m Hok Hlt).
    intros Hv H0.
    pose proof (set_vector_slave_cached_bit cfg false v m Hok Hv) as Hbit.
    rewrite H0, Z.bits_0 in Hbit. discriminate.
  - intros Hnz. apply (set_vector_repeated cfg true v m Hok Hlt). exact Hnz.
Qed.

Lemma repeated_request_is_noop_witness :
  mask_interrupt pc_layout 0x2b (final (mask_interrupt pc_layout 0x2b booted))
  = (NO_ERROR, final (mask_interrupt pc_layout 0x2b booted), [EvLock; EvUnlock])
  /\ unmask_interrupt pc_layout 0x2b (final (unmask_interrupt pc_layout 0x2b booted))
     = (NO_ERROR, final (unmask_interrupt pc_layout 0x2b booted), [EvLock; EvUnlock]).
Proof.
  assert (Hlt : 0x2b < INT_VECTORS pc_layout) by (simpl; lia).
  destruct (repeated_request_is_noop pc_layout 0x2b booted eq_refl Hlt) as [Hm Hu].
  split; [exact Hm |].
  apply Hu. intros _. vm_compute. discriminate.
Defined.

(** ** Mask, then unmask *)

Lemma line_round_trip_rev (k c r : Z) :
  0 <= k < 8 ->
  let s1 := line_step k false c (uint8 r) in
  let s2 := line_step k true (fst s1) (snd s1) in
  fst s2 = snd s2
  /\ forall i, 0 <= i ->
       Z.testbit (snd s2) i = Z.testbit (uint8 r) i && negb (i =? k).
Proof.
  intros Hk s1 s2.
  pose proof (line_step_cached_bit k false c r Hk) as Hbit. fold s1 in Hbit.
  destruct (line_step_byte k false c r) as [r1 Hr1]. fold s1 in Hr1.
  assert (Hs2 : s2 = (uint8 (clear_line k (snd s1)), uint8 (clear_line k (snd s1)))).
  { subst s2. unfold line_step at 1. rewrite Hbit. reflexivity. }
  rewrite Hs2. cbn [fst snd]. split; [reflexivity |].
  intros i Hi. rewrite Hr1. unfold clear_line.
  rewrite testbit_clear_line by assumption. rewrite <- Hr1.
  subst s1. rewrite testbit_line_step by assumption.
  destruct (Z.testbit c k); cbn [Bool.eqb];
    destruct (Z.testbit (uint8 r) i), (i =? k); reflexivity.
Qed.

Lemma clear_bit_fixed (r2 r k : Z) :
  0 <= k < 8 ->
  (forall i, 0 <= i -> Z.testbit r2 i = Z.testbit r i && negb (i =? k)) ->
  (r2 = r <-> Z.testbit r k = false).
Proof.
  intros Hk Hbits. split.
  - intros <-. pose proof (Hbits k ltac:(lia)) as H.
    rewrite Z.eqb_refl, andb_false_r in H. exact H.
  - intros Hclr. apply Z.bits_inj'. intros i Hi. rewrite Hbits by exact Hi.
    destruct (Z.eqb_spec i k) as [-> | _].
    + rewrite Hclr. reflexivity.
    + apply andb_true_r.
Qed.

(** X6. For a vector of the master's range, [mask_interrupt] followed by
    [unmask_interrupt] brings the master's mask register back to the value
    it had before exactly when the vector's line was unmasked in that
    register to begin with, and the cached mask byte comes back with it if
    it mirrored the register; likewise for a vector of the slave's range
    and the slave's register and cache. Otherwise the line ends unmasked. *)
Theorem mask_then_unmask_restores (cfg : pc_config) (v : Z) (m : machine) :
  config_ok cfg = true ->
  (PIC1_BASE cfg <= v < PIC1_BASE cfg + 8 ->
   (mask_register_1
      (final (unmask_interrupt cfg v (final (mask_interrupt cfg v m))))
    = mask_register_1 m
    <-> Z.testbit (mask_register_1 m) (v - PIC1_BASE cfg) = false)
   /\ (Z.testbit (mask_register_1 m) (v - PIC1_BASE cfg) = false ->
       irqMask_0 m = mask_register_1 m ->
       irqMask_0
         (final (unmask_interrupt cfg v (final (mask_interrupt cfg v m))))
       = irqMask_0 m))
  /\ (PIC2_BASE cfg <= v < PIC2_BASE cfg + 8 ->
      (mask_register_2
         (final (unmask_interrupt cfg v (final (mask_interrupt cfg v m))))
       = mask_register_2 m
       <-> Z.testbit (mask_register_2 m) (v - PIC2_BASE cfg) = false)
      /\ (Z.testbit (mask_register_2 m) (v - PIC2_BASE cfg) = false ->
          irqMask_1 m = mask_register_2 m ->
          irqMask_1
            (final (unmask_interrupt cfg v (final (mask_interrupt cfg v m))))
          = irqMask_1 m)).
Proof.
  intros Hok.
  change (mask_interrupt cfg v m) with (set_vector cfg false v m).
  change (unmask_interrupt cfg v (final (set_vector cfg false v m)))
    with (set_vector cfg true v (final (set_vector cfg false v m))).
  split; intros Hv.
  - pose proof (set_vector_master_masks cfg false v m Hok Hv) as H1.
    pose proof (set_vector_master_masks cfg true v
                  (final (set_vector cfg false v m)) Hok Hv) as H2.
    apply (f_equal fst) in H1 as Hf; apply (f_equal snd) in H1 as Hs.
    cbn [fst snd] in Hf, Hs. rewrite Hf, Hs in H2.
    destruct (line_round_trip_rev (v - PIC1_BASE cfg) (irqMask_0 m)
                (ports m (PIC1 + 1)) ltac:(lia)) as [Hcr Hbits].
    fold (mask_register_1 m) in Hcr, Hbits.
    rewrite <- H2 in Hcr, Hbits. cbn [fst snd] in Hcr, Hbits.
    pose proof (clear_bit_fixed _ _ (v - PIC1_BASE cfg) ltac:(lia) Hbits) as Hfix.
    split; [exact Hfix |].
    intros Hclr Hcoh. rewrite Hcr, Hcoh. apply Hfix. exact Hclr.
  - pose proof (set_vector_slave_masks cfg false v m Hok Hv) as H1.
    pose proof (set_vector_slave_masks cfg true v
                  (final (set_vector cfg false v m)) Hok Hv) as H2.
    apply (f_equal fst) in H1 as Hf; apply (f_equal snd) in H1 as Hs.
    cbn [fst snd] in Hf, Hs. rewrite Hf, Hs in H2.
    destruct (line_round_trip_rev (v - PIC2_BASE cfg) (irqMask_1 m)
                (ports m (PIC2 + 1)) ltac:(lia)) as [Hcr Hbits].
    fold (mask_register_2 m) in Hcr, Hbits.
    rewrite <- H2 in Hcr, Hbits. cbn [fst snd] in Hcr, Hbits.
    pose proof (clear_bit_fixed _ _ (v - PIC2_BASE cfg) ltac:(lia) Hbits) as Hfix.
    split; [exact Hfix |].
    intros Hclr Hcoh. rewrite Hcr, Hcoh. apply Hfix. exact Hclr.
Qed.

Lemma mask_then_unmask_restores_witness :
  mask_register_1
    (final (unmask_interrupt pc_layout 0x21 (final (mask_interrupt pc_layout 0x21 power_on))))
  = mask_register_1 power_on
  /\ irqMask_0
       (final (unmask_interrupt pc_layout 0x21 (final (mask_interrupt pc_layout 0x21 power_on))))
     = irqMask_0 power_on.
Proof.
  pose proof (mask_then_unmask_restores pc_layout 0x21 power_on eq_refl) as [H _].
  assert (Hv : PIC1_BASE pc_layout <= 0x21 < PIC1_BASE pc_layout + 8) by (simpl; lia).
  destruct (H Hv) as [Hreg Hcache].
  split.
  - apply Hreg. reflexivity.
  - apply Hcache; reflexivity.
Defined.

(** ** Locking and port discipline *)

Lemma rmw_irqMask_0_accesses (f : Z -> Z) (m : machine) :
  forallb is_master_mask_access (trace (rmw_irqMask_0 f m)) = true.
Proof. rewrite rmw_irqMask_0_trace. reflexivity. Qed.

Lemma rmw_irqMask_1_accesses (f : Z -> Z) (m : machine) :
  forallb is_mask_access (trace (rmw_irqMask_1 f m)) = true.
Proof. rewrite rmw_irqMask_1_trace. reflexivity. Qed.

Lemma master_access_is_mask_access (t : list event) :
  forallb is_master_mask_access t = true -> forallb is_mask_access t = true.
Proof.
  induction t as [| e t IH]; [reflexivity |]. cbn [forallb].
  rewrite !andb_true_iff. intros [He Ht]. split; [| apply IH; exact Ht].
  destruct e; cbn [is_master_mask_access is_mask_access] in *;
    try discriminate; rewrite He; reflexivity.
Qed.

Lemma enable_master_line_accesses (k : Z) (en : bool) (m : machine) :
  forallb is_master_mask_access (trace (enable_master_line k en m)) = true.
Proof.
  unfold enable_master_line. binds.
  cbn [load_irqMask_0 result final trace fst snd app].
  destruct (en && _); [apply rmw_irqMask_0_accesses |].
  destruct (negb en && _); [apply rmw_irqMask_0_accesses | reflexivity].
Qed.

Lemma enable_slave_line_accesses (k : Z) (en : bool) (m : machine) :
  forallb is_mask_access (trace (enable_slave_line k en m)) = true.
Proof.
  unfold enable_slave_line. binds.
  cbn [load_irqMask_1 result final trace fst snd app].
  destruct (en && _); [apply rmw_irqMask_1_accesses |].
  destruct (negb en && _); [apply rmw_irqMask_1_accesses | reflexivity].
Qed.

Lemma cascade_update_accesses (k : Z) (m : machine) :
  forallb is_mask_access (trace (cascade_update k m)) = true.
Proof.
  apply master_access_is_mask_access.
  unfold cascade_update. binds.
  cbn [load_irqMask_0 load_irqMask_1 result final trace fst snd app].
  destruct (negb _ && _); [apply rmw_irqMask_0_accesses |].
  destruct ((_ =? 0) && _); [apply rmw_irqMask_0_accesses | reflexivity].
Qed.

Lemma enable_accesses (cfg : pc_config) (v : Z) (en : bool) (m : machine) :
  forallb is_mask_access (trace (enable cfg v en m)) = true
  /\ ((PIC1_BASE cfg <=? v) && (v <? PIC1_BASE cfg + 8) = true ->
      forallb is_master_mask_access (trace (enable cfg v en m)) = true).
Proof.
  rewrite enable_eq.
  destruct ((PIC1_BASE cfg <=? v) && (v <? PIC1_BASE cfg + 8)).
  - split; [apply master_access_is_mask_access |]; intros;
      apply enable_master_line_accesses.
  - split; [| discriminate].
    destruct ((PIC2_BASE cfg <=? v) && (v <? PIC2_BASE cfg + 8)); [| reflexivity].
    rewrite trace_bind, forallb_app, enable_slave_line_accesses,
      cascade_update_accesses. reflexivity.
Qed.

(** X7. A [mask_interrupt] or [unmask_interrupt] call on a vector below
    [INT_VECTORS] takes the lock first and releases it last, and everything
    in between is a read or a write of one of the two mask registers: no
    command port is touched, no handler is called, the lock is not taken
    twice. For a vector of the master's range only the master's mask
    register is accessed. *)
Theorem requests_run_under_the_lock (cfg : pc_config) (en : bool) (v : Z) (m : machine) :
  v < INT_VECTORS cfg ->
  exists t,
    trace (set_vector cfg en v m) = EvLock :: t ++ [EvUnlock]
    /\ forallb is_mask_access t = true
    /\ (PIC1_BASE cfg <= v < PIC1_BASE cfg + 8 ->
        forallb is_master_mask_access t = true).
Proof.
  intros Hlt. exists (trace (enable cfg v en m)).
  rewrite set_vector_eq.
  destruct (Z.geb_spec v (INT_VECTORS cfg)); [lia |].
  destruct (enable_accesses cfg v en m) as [Hall Hmaster].
  split; [reflexivity |]. split; [exact Hall |].
  intros Hv. apply Hmaster.
  destruct (Z.leb_spec (PIC1_BASE cfg) v); [| lia].
  destruct (Z.ltb_spec v (PIC1_BASE cfg + 8)); [reflexivity | lia].
Qed.

Lemma requests_run_under_the_lock_witness :
  exists t,
    trace (set_vector pc_layout true 0x2b booted) = EvLock :: t ++ [EvUnlock]
    /\ forallb is_mask_access t = true
    /\ (PIC1_BASE pc_layout <= 0x2b < PIC1_BASE pc_layout + 8 ->
        forallb is_master_mask_access t = true).
Proof.
  apply (requests_run_under_the_lock pc_layout true 0x2b booted). simpl. lia.
Defined.

(** ** Registration *)

(** X8. Registering a handler for a vector inside the table returns after
    one lock and one unlock, leaves the given handler and argument in the
    vector's slot, and changes nothing else: every other slot, every port
    and both cached masks are as before. *)
Theorem register_int_handler_fills_one_slot (cfg : pc_config)
    (v h ctx : Z) (m : machine) :
  0 <= v < INT_VECTORS cfg ->
  exists m1,
    register_int_handler cfg v h ctx m = Returned tt m1 [EvLock; EvUnlock]
    /\ int_handler_table m1 v = {| handler := h; arg := ctx |}
    /\ (forall w, w <> v -> int_handler_table m1 w = int_handler_table m w)
    /\ ports m1 = ports m
    /\ irqMask_0 m1 = irqMask_0 m
    /\ irqMask_1 m1 = irqMask_1 m.
Proof.
  intros Hv.
  exists (final ((spin_lock_irqsave ;; store_handler_arg v ctx ;;
                  store_handler_handler v h ;; spin_unlock_irqrestore) m)).
  split.
  { unfold register_int_handler.
    destruct (Z.geb_spec v (INT_VECTORS cfg)); [lia | reflexivity]. }
  split; [cbn; rewrite Z.eqb_refl; reflexivity |].
  split; [| repeat split].
  intros w Hw. cbn.
  destruct (Z.eqb_spec w v); [contradiction | reflexivity].
Qed.

Lemma register_int_handler_fills_one_slot_witness :
  exists m1,
    register_int_handler pc_layout 0x21 1 7 booted = Returned tt m1 [EvLock; EvUnlock]
    /\ int_handler_table m1 0x21 = {| handler := 1; arg := 7 |}
    /\ (forall w, w <> 0x21 -> int_handler_table m1 w = int_handler_table booted w)
    /\ ports m1 = ports booted
    /\ irqMask_0 m1 = irqMask_0 booted
    /\ irqMask_1 m1 = irqMask_1 booted.
Proof.
  apply (register_int_handler_fills_one_slot pc_layout 0x21 1 7 booted).
  simpl. lia.
Defined.

(** ** Delivery *)

Lemma issueEOI_frame (cfg : pc_config) (v : Z) (m : machine) :
  mask_register_1 (final (issueEOI cfg v m)) = mask_register_1 m
  /\ mask_register_2 (final (issueEOI cfg v m)) = mask_register_2 m
  /\ irqMask_0 (final (issueEOI cfg v m)) = irqMask_0 m
  /\ irqMask_1 (final (issueEOI cfg v m)) = irqMask_1 m
  /\ int_handler_table (final (issueEOI cfg v m)) = int_handler_table m.
Proof.
  unfold issueEOI.
  destruct ((PIC1_BASE cfg <=? v) && (v <=? PIC1_BASE cfg + 7)); [repeat split |].
  destruct ((PIC2_BASE cfg <=? v) && (v <=? PIC2_BASE cfg + 7)); repeat split.
Qed.

(** What a delivery does, by the slot of its vector. *)
Lemma platform_irq_run (cfg : pc_config)
    (handlers : Z -> Z -> machine -> handler_return * machine)
    (v : Z) (m : machine) :
  0x20 <= v < INT_VECTORS cfg ->
  platform_irq cfg handlers {| vector := v |} m
  = if handler (int_handler_table m v) =? 0 then
      Returned INT_NO_RESCHEDULE (final (issueEOI cfg v m)) (trace (issueEOI cfg v m))
    else
      Returned
        (fst (handlers (handler (int_handler_table m v)) (arg (int_handler_table m v)) m))
        (final (issueEOI cfg v
           (snd (handlers (handler (int_handler_table m v))
                          (arg (int_handler_table m v)) m))))
        (EvCall (handler (int_handler_table m v)) (arg (int_handler_table m v))
         :: trace (issueEOI cfg v
              (snd (handlers (handler (int_handler_table m v))
                             (arg (int_handler_table m v)) m)))).
Proof.
  intros Hv. unfold platform_irq, DEBUG_ASSERT, in_table. cbn [vector].
  destruct (Z.geb_spec v 0x20); [| lia].
  destruct (Z.leb_spec 0 v); [| lia].
  destruct (Z.ltb_spec v (INT_VECTORS cfg)); [| lia].
  cbn [andb]. unfold truthy.
  destruct (handler (int_handler_table m v) =? 0); cbn [negb].
  - unfold returning, bind. cbn [pure].
    destruct (issueEOI cfg v m) as [[u m3] t3].
    cbn [final trace fst snd app]. rewrite app_nil_r. reflexivity.
  - unfold returning, bind, call_handler.
    destruct (handlers _ _ m) as [r m2]. cbn [fst snd].
    destruct (issueEOI cfg v m2) as [[u m3] t3].
    cbn [pure final trace fst snd app]. rewrite app_nil_r. reflexivity.
Qed.

(** X9. The delivery of a vector from 0x20 up to [INT_VECTORS] whose slot
    holds no handler returns "no reschedule", calls nothing, and still runs
    [issueEOI] for the vector: its events and its effect on the machine are
    those of [issueEOI] alone. This is the case of every vector before any
    registration, and of a vector for which a null handler was registered
    last. *)
Theorem dispatch_without_handler (cfg : pc_config)
    (handlers : Z -> Z -> machine -> handler_return * machine)
    (v : Z) (m : machine) :
  0x20 <= v < INT_VECTORS cfg ->
  (handler (int_handler_table m v) = 0 ->
   platform_irq cfg handlers {| vector := v |} m
   = Returned INT_NO_RESCHEDULE (final (issueEOI cfg v m)) (trace (issueEOI cfg v m))
   /\ filter is_call (trace (issueEOI cfg v m)) = [])
  /\ (forall ctx, exists m1,
        register_int_handler cfg v 0 ctx m = Returned tt m1 [EvLock; EvUnlock]
        /\ platform_irq cfg handlers {| vector := v |} m1
           = Returned INT_NO_RESCHEDULE (final (issueEOI cfg v m1))
                      (trace (issueEOI cfg v m1))).
Proof.
  intros Hv. split.
  - intros Hnull. rewrite platform_irq_run, Hnull by exact Hv.
    split; [reflexivity | apply issueEOI_no_call].
  - intros ctx.
    exists (final ((spin_lock_irqsave ;; store_handler_arg v ctx ;;
                    store_handler_handler v 0 ;; spin_unlock_irqrestore) m)).
    split.
    { unfold register_int_handler.
      destruct (Z.geb_spec v (INT_VECTORS cfg)); [lia | reflexivity]. }
    rewrite platform_irq_run by exact Hv.
    cbn [final fst snd int_handler_table bind spin_lock_irqsave
         store_handler_arg store_handler_handler spin_unlock_irqrestore].
    cbn. rewrite Z.eqb_refl. reflexivity.
Qed.

Lemma dispatch_without_handler_witness :
  platform_irq pc_layout idle_handlers {| vector := 0x2b |} booted
  = Returned INT_NO_RESCHEDULE (final (issueEOI pc_layout 0x2b booted))
             (trace (issueEOI pc_layout 0x2b booted))
  /\ filter is_call (trace (issueEOI pc_layout 0x2b booted)) = [].
Proof.
  assert (Hv : 0x20 <= 0x2b < INT_VECTORS pc_layout) by (simpl; lia).
  destruct (dispatch_without_handler pc_layout idle_handlers 0x2b booted Hv) as [H _].
  apply H. reflexivity.
Defined.

Lemma register_int_handler_run (cfg : pc_config) (v h ctx : Z) (m : machine) :
  v < INT_VECTORS cfg ->
  register_int_handler cfg v h ctx m
  = Returned tt
      (final ((spin_lock_irqsave ;; store_handler_arg v ctx ;;
               store_handler_handler v h ;; spin_unlock_irqrestore) m))
      [EvLock; EvUnlock].
Proof.
  intros Hv. unfold register_int_handler.
  destruct (Z.geb_spec v (INT_VECTORS cfg)); [lia | reflexivity].
Qed.

(** X10. Of two registrations the later one wins for its vector and leaves
    the other vectors' handlers in place: after registering [h] with [c]
    for [v] and then [h'] with [c'] for [w], the delivery of [v] calls
    exactly once the handler registered last for [v] ([h'] with [c'] when
    [w] is [v], else [h] with [c]), provided that handler is not null, and
    returns its decision. *)
Theorem later_registration_wins (cfg : pc_config)
    (handlers : Z -> Z -> machine -> handler_return * machine)
    (v w h c h' c' : Z) (m : machine) :
  0x20 <= v < INT_VECTORS cfg ->
  0 <= w < INT_VECTORS cfg ->
  (if w =? v then h' else h) <> 0 ->
  exists m1 m2,
    register_int_handler cfg v h c m = Returned tt m1 [EvLock; EvUnlock]
    /\ register_int_handler cfg w h' c' m1 = Returned tt m2 [EvLock; EvUnlock]
    /\ int_handler_table m2 v
       = {| handler := if w =? v then h' else h; arg := if w =? v then c' else c |}
    /\ platform_irq cfg handlers {| vector := v |} m2
       = Returned
           (fst (handlers (if w =? v then h' else h) (if w =? v then c' else c) m2))
           (final (issueEOI cfg v
              (snd (handlers (if w =? v then h' else h) (if w =? v then c' else c) m2))))
           (EvCall (if w =? v then h' else h) (if w =? v then c' else c)
            :: trace (issueEOI cfg v
                 (snd (handlers (if w =? v then h' else h)
                                (if w =? v then c' else c) m2)))).
Proof.
  intros Hv Hw Hh.
  eexists. eexists.
  split; [apply register_int_handler_run; lia |].
  split; [apply register_int_handler_run; lia |].
  match goal with
  | |- int_handler_table ?m2 v = _ /\ _ =>
      assert (Hslot : int_handler_table m2 v
                = {| handler := if w =? v then h' else h;
                     arg := if w =? v then c' else c |})
  end.
  { cbn. rewrite (Z.eqb_sym v w), Z.eqb_refl.
    destruct (w =? v); reflexivity. }
  split; [exact Hslot |].
  rewrite platform_irq_run, Hslot by exact Hv. cbn [handler arg].
  destruct (Z.eqb_spec (if w =? v then h' else h) 0); [contradiction | reflexivity].
Qed.

Lemma later_registration_wins_witness :
  exists m1 m2,
    register_int_handler pc_layout 0x21 1 7 booted = Returned tt m1 [EvLock; EvUnlock]
    /\ register_int_handler pc_layout 0x21 2 9 m1 = Returned tt m2 [EvLock; EvUnlock]
    /\ int_handler_table m2 0x21 = {| handler := 2; arg := 9 |}
    /\ platform_irq pc_layout idle_handlers {| vector := 0x21 |} m2
       = Returned (fst (idle_handlers 2 9 m2))
                  (final (issueEOI pc_layout 0x21 (snd (idle_handlers 2 9 m2))))
                  (EvCall 2 9 :: trace (issueEOI pc_layout 0x21 (snd (idle_handlers 2 9 m2)))).
Proof.
  apply (later_registration_wins pc_layout idle_handlers 0x21 0x21 1 7 2 9 booted).
  - simpl. lia.
  - simpl. lia.
  - simpl. discriminate.
Defined.

(** X11. [platform_irq] checks its vector against 0x20 only: for a vector
    from 0x20 up to [INT_VECTORS] it always returns, and for a vector at or
    above both 0x20 and [INT_VECTORS] it indexes the handler table outside
    its [INT_VECTORS] slots, before any handler is called or any
    acknowledge is written. *)
Theorem platform_irq_upper_bound_unchecked (cfg : pc_config)
    (handlers : Z -> Z -> machine -> handler_return * machine)
    (v : Z) (m : machine) :
  0x20 <= v ->
  (v < INT_VECTORS cfg ->
   exists r m' t, platform_irq cfg handlers {| vector := v |} m = Returned r m' t)
  /\ (INT_VECTORS cfg <= v ->
      platform_irq cfg handlers {| vector := v |} m = OutOfBounds m []).
Proof.
  intros Hlo. split.
  - intros Hhi. rewrite platform_irq_run by lia.
    destruct (handler (int_handler_table m v) =? 0); eexists _, _, _; reflexivity.
  - intros Hhi. unfold platform_irq, DEBUG_ASSERT, in_table. cbn [vector].
    destruct (Z.geb_spec v 0x20); [| lia].
    destruct (Z.ltb_spec v (INT_VECTORS cfg)); [lia |].
    rewrite andb_false_r. reflexivity.
Qed.

Lemma platform_irq_upper_bound_unchecked_witness :
  platform_irq pc_layout idle_handlers {| vector := 0x31 |} booted
  = OutOfBounds booted [].
Proof.
  assert (Hlo : 0x20 <= 0x31) by lia.
  destruct (platform_irq_upper_bound_unchecked pc_layout idle_handlers 0x31 booted Hlo)
    as [_ H].
  apply H. simpl. lia.
Defined.

(** X12. A delivery leaves the mask state to the handler: for a vector
    from 0x20 up to [INT_VECTORS], both mask registers, both cached masks
    and the handler table are after [platform_irq] what the called handler
    made of them, and what they were before when the slot holds no
    handler. *)
Theorem dispatch_keeps_mask_state (cfg : pc_config)
    (handlers : Z -> Z -> machine -> handler_return * machine)
    (v : Z) (m : machine) :
  0x20 <= v < INT_VECTORS cfg ->
  exists r m' t,
    platform_irq cfg handlers {| vector := v |} m = Returned r m' t
    /\ (let mh := if handler (int_handler_table m v) =? 0 then m
                  else snd (handlers (handler (int_handler_table m v))
                                     (arg (int_handler_table m v)) m) in
        mask_register_1 m' = mask_register_1 mh
        /\ mask_register_2 m' = mask_register_2 mh
        /\ irqMask_0 m' = irqMask_0 mh
        /\ irqMask_1 m' = irqMask_1 mh
        /\ int_handler_table m' = int_handler_table mh).
Proof.
  intros Hv. rewrite platform_irq_run by exact Hv.
  destruct (handler (int_handler_table m v) =? 0);
    eexists _, _, _; (split; [reflexivity | apply issueEOI_frame]).
Qed.

Lemma dispatch_keeps_mask_state_witness :
  exists r m' t,
    platform_irq pc_layout idle_handlers {| vector := 0x2b |} booted = Returned r m' t
    /\ (let mh := if handler (int_handler_table booted 0x2b) =? 0 then booted
                  else snd (idle_handlers (handler (int_handler_table booted 0x2b))
                                          (arg (int_handler_table booted 0x2b)) booted) in
        mask_register_1 m' = mask_register_1 mh
        /\ mask_register_2 m' = mask_register_2 mh
        /\ irqMask_0 m' = irqMask_0 mh
        /\ irqMask_1 m' = irqMask_1 mh
        /\ int_handler_table m' = int_handler_table mh).
Proof.
  apply (dispatch_keeps_mask_state pc_layout idle_handlers 0x2b booted). simpl. lia.
Defined.

(** ** The cascade, where it works *)

(** X13. After masking or unmasking a vector of the slave's range, if the
    slave's cached mask is neither 0xff nor 0 (some but not all slave lines
    are enabled), the cascade bit of the master's cached mask is clear, and
    so is that bit of the master's mask register when the caches mirrored
    the registers before the call. *)
Theorem cascade_enabled_when_some_slave_line_is (cfg : pc_config) (en : bool)
    (v : Z) (m : machine) :
  config_ok cfg = true ->
  PIC2_BASE cfg <= v < PIC2_BASE cfg + 8 ->
  irqMask_1 (final (set_vector cfg en v m)) <> 0xff ->
  irqMask_1 (final (set_vector cfg en v m)) <> 0 ->
  Z.testbit (irqMask_0 (final (set_vector cfg en v m))) (INT_PIC2 cfg - PIC1_BASE cfg)
  = false
  /\ (coherent m ->
      Z.testbit (mask_register_1 (final (set_vector cfg en v m)))
                (INT_PIC2 cfg - PIC1_BASE cfg) = false).
Proof.
  intros Hok Hv Hnff Hnz.
  pose proof (set_vector_slave_cascade_bit cfg en v m Hok Hv) as Hbit.
  destruct (Z.eqb_spec (irqMask_1 (final (set_vector cfg en v m))) 0xff);
    [contradiction |].
  destruct (Z.eqb_spec (irqMask_1 (final (set_vector cfg en v m))) 0);
    [contradiction |].
  split; [exact Hbit |].
  intros Hc. destruct (set_vector_coherent cfg en v m Hok Hc) as [H0 _].
  rewrite <- H0. exact Hbit.
Qed.

Lemma cascade_enabled_when_some_slave_line_is_witness :
  Z.testbit (irqMask_0 (final (set_vector pc_layout true 0x2b booted)))
            (INT_PIC2 pc_layout - PIC1_BASE pc_layout) = false
  /\ Z.testbit (mask_register_1 (final (set_vector pc_layout true 0x2b booted)))
               (INT_PIC2 pc_layout - PIC1_BASE pc_layout) = false.
Proof.
  assert (Hv : PIC2_BASE pc_layout <= 0x2b < PIC2_BASE pc_layout + 8) by (simpl; lia).
  assert (Hnff : irqMask_1 (final (set_vector pc_layout true 0x2b booted)) <> 0xff)
    by (vm_compute; discriminate).
  assert (Hnz : irqMask_1 (final (set_vector pc_layout true 0x2b booted)) <> 0)
    by (vm_compute; discriminate).
  destruct (cascade_enabled_when_some_slave_line_is pc_layout true 0x2b booted
              eq_refl Hv Hnff Hnz) as [Hc Hr].
  split; [exact Hc | apply Hr; split; reflexivity].
Defined.

(** ** The last request decides *)

Lemma set_vector_master_line_bit (cfg : pc_config) (en : bool) (w v : Z) (m : machine) :
  config_ok cfg = true ->
  coherent m ->
  PIC1_BASE cfg <= v < PIC1_BASE cfg + 8 ->
  v <> INT_PIC2 cfg ->
  Z.testbit (mask_register_1 (final (set_vector cfg en w m))) (v - PIC1_BASE cfg)
  = if w =? v then negb en
    else Z.testbit (mask_register_1 m) (v - PIC1_BASE cfg).
Proof.
  intros Hok [Hc0 Hc1] Hv Hcas. pose proof (config_ok_bounds cfg Hok) as Hb.
  destruct (vector_cases cfg w) as [Hge | [Hw | [Hw | [Hlt [Hn1 Hn2]]]]].
  - rewrite set_vector_eq.
    destruct (Z.geb_spec w (INT_VECTORS cfg)); [| lia].
    destruct (Z.eqb_spec w v); [lia | reflexivity].
  - destruct (set_vector_master_bits cfg en w m Hok Hw Hc0) as [_ Hbits].
    rewrite Hbits by lia.
    destruct (Z.eqb_spec (v - PIC1_BASE cfg) (w - PIC1_BASE cfg)), (Z.eqb_spec w v);
      try reflexivity; lia.
  - rewrite final_set_vector_slave by assumption.
    destruct (cascade_update_other_bits (INT_PIC2 cfg - PIC1_BASE cfg)
                (v - PIC1_BASE cfg)
                (final (enable_slave_line (w - PIC2_BASE cfg) en m)))
      as [Hreg _]; try lia.
    rewrite Hreg.
    pose proof (enable_slave_line_frame (w - PIC2_BASE cfg) en m) as [_ [Hr _]].
    rewrite Hr. destruct (Z.eqb_spec w v); [lia | reflexivity].
  - rewrite set_vector_unbacked by assumption.
    destruct (Z.eqb_spec w v); [lia | reflexivity].
Qed.

Lemma set_vector_slave_line_bit (cfg : pc_config) (en : bool) (w v : Z) (m : machine) :
  config_ok cfg = true ->
  coherent m ->
  PIC2_BASE cfg <= v < PIC2_BASE cfg + 8 ->
  Z.testbit (mask_register_2 (final (set_vector cfg en w m))) (v - PIC2_BASE cfg)
  = if w =? v then negb en
    else Z.testbit (mask_register_2 m) (v - PIC2_BASE cfg).
Proof.
  intros Hok [Hc0 Hc1] Hv. pose proof (config_ok_bounds cfg Hok) as Hb.
  destruct (vector_cases cfg w) as [Hge | [Hw | [Hw | [Hlt [Hn1 Hn2]]]]].
  - rewrite set_vector_eq.
    destruct (Z.geb_spec w (INT_VECTORS cfg)); [| lia].
    destruct (Z.eqb_spec w v); [lia | reflexivity].
  - rewrite final_set_vector_master by assumption.
    pose proof (enable_master_line_frame (w - PIC1_BASE cfg) en m) as [_ [Hr _]].
    rewrite Hr. destruct (Z.eqb_spec w v); [lia | reflexivity].
  - destruct (set_vector_slave_bits cfg en w m Hok Hw Hc1) as [_ Hbits].
    rewrite Hbits by lia.
    destruct (Z.eqb_spec (v - PIC2_BASE cfg) (w - PIC2_BASE cfg)), (Z.eqb_spec w v);
      try reflexivity; lia.
  - rewrite set_vector_unbacked by assumption.
    destruct (Z.eqb_spec w v); [lia | reflexivity].
Qed.

(** X14. Along any sequence of [mask_interrupt] and [unmask_interrupt]
    calls on any vectors, started with caches that mirror the registers,
    the mask bit of a hardware line in its controller's register is decided
    by the last call made for the line's vector: set after a
    [mask_interrupt], clear after an [unmask_interrupt], and what it was if
    there was none. This holds for every slave vector and for every master
    vector other than the cascade vector [INT_PIC2]. *)
Theorem last_request_decides (cfg : pc_config) (v : Z) (rs : list request) (m : machine) :
  config_ok cfg = true ->
  coherent m ->
  (PIC1_BASE cfg <= v < PIC1_BASE cfg + 8 ->
   v <> INT_PIC2 cfg ->
   Z.testbit (mask_register_1 (run_all (calls cfg rs) m)) (v - PIC1_BASE cfg)
   = line_masked v rs (Z.testbit (mask_register_1 m) (v - PIC1_BASE cfg)))
  /\ (PIC2_BASE cfg <= v < PIC2_BASE cfg + 8 ->
      Z.testbit (mask_register_2 (run_all (calls cfg rs) m)) (v - PIC2_BASE cfg)
      = line_masked v rs (Z.testbit (mask_register_2 m) (v - PIC2_BASE cfg))).
Proof.
  intros Hok. revert m.
  induction rs as [| [en w] rs IH]; intros m Hc.
  - split; intros; reflexivity.
  - cbn [calls List.map run_all line_masked fst snd].
    pose proof (set_vector_coherent cfg en w m Hok Hc) as Hc'.
    destruct (IH _ Hc') as [IH1 IH2]. unfold calls in IH1, IH2.
    split.
    + intros Hv Hcas. rewrite IH1 by assumption.
      rewrite set_vector_master_line_bit by assumption. reflexivity.
    + intros Hv. rewrite IH2 by assumption.
      rewrite set_vector_slave_line_bit by assumption. reflexivity.
Qed.

Lemma last_request_decides_witness :
  Z.testbit
    (mask_register_1
       (run_all (calls pc_layout [(true, 0x21); (true, 0x2b); (false, 0x21); (true, 0x21)])
          booted))
    (0x21 - PIC1_BASE pc_layout)
  = line_masked 0x21 [(true, 0x21); (true, 0x2b); (false, 0x21); (true, 0x21)]
      (Z.testbit (mask_register_1 booted) (0x21 - PIC1_BASE pc_layout)).
Proof.
  assert (Hc : coherent booted) by (split; reflexivity).
  destruct (last_request_decides pc_layout 0x21
              [(true, 0x21); (true, 0x2b); (false, 0x21); (true, 0x21)] booted
              eq_refl Hc) as [H _].
  apply H; simpl; lia.
Defined.
